(** * AWS connector: the Ditto-to-Shadow device handler, the shadow state
      handler and the command request filter, embedded from the Go sources.

    Layout: the data model and the three handlers come first (one module per
    Go package), then the lemmas about them. *)

From Stdlib Require Import ZArith String Ascii List Bool Lia Permutation.
From Stdlib Require Import DecimalString DecimalPos DecimalZ.
From stdpp Require Import gmap strings.
Import ListNotations.
Local Open Scope string_scope.
Local Open Scope list_scope.
Set Warnings "-register-all".
#[local] Arguments String.append !_ _ : simpl nomatch.

(** ** Go values *)

(** A decoded JSON document, as [encoding/json] stores it in an
    [interface{}]: [nil], [bool], a number, [string], [[]interface{}] and
    [map[string]interface{}].  A Go map is kept as an association list with
    one entry per key; numbers are restricted to integers. *)
Inductive json : Type :=
| JNull
| JBool (b : bool)
| JNum (n : Z)
| JStr (s : string)
| JArr (items : list json)
| JObj (fields : list (string * json)).

(** The outcome of running a Go function: it returns, or the goroutine
    panics (nil pointer dereference, slice bounds out of range). *)
Inductive outcome (A : Type) : Type :=
| Returns (a : A)
| Panics.
Arguments Returns {A} a.
Arguments Panics {A}.

Definition obind {A B} (o : outcome A) (k : A -> outcome B) : outcome B :=
  match o with
  | Returns a => k a
  | Panics => Panics
  end.

Notation "'do' x <~ c1 ; c2" := (obind c1 (fun x => c2))
  (at level 10, x name, c1 at level 100, c2 at level 200).

(** Running a fallible step over a slice, left to right. *)
Fixpoint oforeach {A B} (f : A -> outcome (list B)) (l : list A) : outcome (list B) :=
  match l with
  | [] => Returns []
  | a :: r => do bs <~ f a; do rest <~ oforeach f r; Returns (bs ++ rest)
  end.

Module Go.

(** [m[key]] with the comma-ok form. *)
Fixpoint mapGet (key : string) (m : list (string * json)) : option json :=
  match m with
  | [] => None
  | (k, v) :: r => if String.eqb k key then Some v else mapGet key r
  end.

(** [m[key] = v]. *)
Fixpoint mapSet (key : string) (v : json) (m : list (string * json)) : list (string * json) :=
  match m with
  | [] => [(key, v)]
  | (k, w) :: r => if String.eqb k key then (k, v) :: r else (k, w) :: mapSet key v r
  end.

(** [strings.Split(s, "/")]. *)
Fixpoint Split (s : string) : list string :=
  match s with
  | EmptyString => [EmptyString]
  | String c r =>
      if Ascii.eqb c "/"%char then EmptyString :: Split r
      else match Split r with
           | h :: t => String c h :: t
           | [] => [String c EmptyString]
           end
  end.

(** [strings.HasPrefix(s, p)]. *)
Definition HasPrefix (s p : string) : bool := String.prefix p s.

(** [strings.HasSuffix(s, suf)]. *)
Definition HasSuffix (s suf : string) : bool :=
  (String.length suf <=? String.length s)%nat &&
  String.eqb (substring (String.length s - String.length suf) (String.length suf) s) suf.

(** [strings.Contains(s, sub)]. *)
Fixpoint Contains (s sub : string) : bool :=
  String.prefix sub s ||
  match s with
  | EmptyString => false
  | String _ r => Contains r sub
  end.

(** The slice expression [s[n:]]. *)
Definition sliceFrom (s : string) (n : nat) : outcome string :=
  if (n <=? String.length s)%nat
  then Returns (substring n (String.length s - n) s)
  else Panics.

(** [%d] of a slice index. *)
Definition itoa (n : nat) : string := NilZero.string_of_uint (Nat.to_uint n).

End Go.

(** ** The Ditto protocol envelope (package [protocol] of the Ditto client) *)

Record Topic : Type := {
  Namespace : string;
  EntityName : string;
  Group : string;
  Channel : string;
  Criterion : string;
  Action : string
}.

(** [Topic] is a pointer in the Go struct: it stays [nil] when the JSON
    document has no [topic] member.  The headers are not read by the code
    modelled here. *)
Record Envelope : Type := {
  EnvTopic : option Topic;
  Path : string;
  Value : json;
  Status : Z
}.

Definition GroupThings := "things".
Definition ChannelTwin := "twin".
Definition CriterionCommands := "commands".
Definition ActionCreate := "create".
Definition ActionModify := "modify".
Definition ActionMerge := "merge".
Definition ActionDelete := "delete".

(** ** Messages *)

(** A watermill message: the topic carried in its context (if any) and the
    payload bytes.  The random UUID of a message is not modelled. *)
Record Message : Type := {
  msgTopic : option string;
  msgPayload : string
}.

Definition error := string.

(** A compiled [*regexp.Regexp], known by what [MatchString] answers. *)
Record Regexp : Type := { MatchString : string -> bool }.

(** What the handlers call from other packages: [json.Marshal] of a value,
    [json.Unmarshal] into an [interface{}] and into an [*Envelope], and
    [Topic.String]. *)
Record Extern : Type := {
  json_Marshal : json -> option string;
  json_Unmarshal : string -> option json;
  Envelope_Unmarshal : string -> option Envelope;
  Topic_String : Topic -> string
}.

(** What may differ between two runs of the device handler on the same
    message: the order in which [range] visits the entries of a map (Go
    leaves it unspecified) and the wall clock read by the timestamp
    middleware of the default handler. *)
Record Run : Type := {
  rangeOrder : list (string * json) -> list (string * json);
  clock : Z
}.

(** ** Package [passthrough]: the device handler *)

Module passthrough.

Definition valueAttributesTag := "attributes".
Definition valueFeaturesTag := "features".
Definition valuePropertiesTag := "properties".
Definition valueDefinitionTag := "definition".
Definition valueStateTag := "state".
Definition valueReportedTag := "reported".

Definition topicUpdate := "update".
Definition topicDelete := "delete".

(** [fmt.Sprintf(topicRootShadow, d, t)]. *)
Definition topicRootShadow (d t : string) : string :=
  "$aws/things/" ++ d ++ "/shadow/" ++ t.

(** [fmt.Sprintf(topicNamedShadow, d, n, t)]. *)
Definition topicNamedShadow (d n t : string) : string :=
  "$aws/things/" ++ d ++ "/shadow/name/" ++ n ++ "/" ++ t.

(** [fmt.Sprintf(topicComplexNamedShadow, d, c, f, t)]. *)
Definition topicComplexNamedShadow (d c f t : string) : string :=
  "$aws/things/" ++ d ++ "/shadow/name/" ++ c ++ ":" ++ f ++ "/" ++ t.

Record deviceHandler : Type := {
  tenantID : string;
  deviceID : string;
  payloadFilters : list Regexp;
  topicFilter : option Regexp;
  defaultHandler : Z -> Message -> list Message * option error
}.

(** [fmt.Sprintf("%s:%s", topic.Namespace, topic.EntityName)]. *)
Definition thingID (t : Topic) : string := Namespace t ++ ":" ++ EntityName t.

Definition isEntireShadow (value : json) : bool :=
  match value with
  | JObj v => (length v =? 0)%nat
  | _ => true
  end.

Definition toShadowTopic (h : deviceHandler) (topic : option Topic)
    (featureName : string) (value : json) : outcome (string * bool) :=
  match topic with
  | None => Panics
  | Some topic =>
      let '(target, update) :=
        if String.eqb (Action topic) ActionDelete && isEntireShadow value
        then (topicDelete, false) else (topicUpdate, true) in
      let topicID := thingID topic in
      if (String.length (deviceID h) =? String.length topicID)%nat then
        if String.eqb featureName "" then
          Returns (topicRootShadow (deviceID h) target, update)
        else
          Returns (topicNamedShadow (deviceID h) featureName target, update)
      else if String.eqb featureName "" then
        do child <~ Go.sliceFrom topicID (String.length (deviceID h) + 1);
        Returns (topicNamedShadow (deviceID h) child target, update)
      else
        do child <~ Go.sliceFrom topicID (String.length (deviceID h) + 1);
        Returns (topicComplexNamedShadow (deviceID h) child featureName target, update)
  end.

Definition isDittoRequest (h : deviceHandler) (env : Envelope) : outcome bool :=
  match EnvTopic env with
  | None => Panics
  | Some t =>
      let id := thingID t in
      Returns ((Status env =? 0)%Z && String.eqb (Group t) GroupThings &&
               (String.eqb id (deviceID h) || Go.HasPrefix id (deviceID h ++ ":")))
  end.

Definition isShadowMessage (h : deviceHandler) (env : Envelope) : outcome bool :=
  do ditto <~ isDittoRequest h env;
  match EnvTopic env with
  | None => if ditto then Panics else Returns false
  | Some topic =>
      Returns (ditto &&
               String.eqb (Channel topic) ChannelTwin &&
               String.eqb (Criterion topic) CriterionCommands &&
               (String.eqb (Action topic) ActionCreate ||
                String.eqb (Action topic) ActionModify ||
                String.eqb (Action topic) ActionMerge ||
                String.eqb (Action topic) ActionDelete))
  end.

(** What [search] hands to its callback: nothing when the callback is not
    called, [Some None] for [fn(nil)], [Some (Some m)] for [fn(m)]. *)
Definition search (key : string) (value : json) : option (option (list (string * json))) :=
  match value with
  | JObj v1 =>
      match Go.mapGet key v1 with
      | Some (JObj v3) => Some (Some v3)
      | Some _ => Some None
      | None => None
      end
  | _ => None
  end.

(** A [map[string]interface{}] stored in an [interface{}]; a nil map
    has no entries and is marshalled as [null]. *)
Definition ofMap (m : option (list (string * json))) : json :=
  match m with
  | Some m => JObj m
  | None => JNull
  end.

Fixpoint integrate (path : list string) (value : json) : json :=
  match path with
  | [] => value
  | p :: rest =>
      if (0 <? String.length p)%nat
      then JObj [(p, integrate rest value)]
      else integrate rest value
  end.

Definition toShadowMessage (ext : Extern) (h : deviceHandler) (env : Envelope)
    (featureName : string) (value : json) : outcome Message :=
  do r <~ toShadowTopic h (EnvTopic env) featureName value;
  let '(topic, update) := r in
  let payload :=
    if update then
      match json_Marshal ext (integrate [valueStateTag; valueReportedTag] value) with
      | Some bytes => bytes
      | None => ""
      end
    else "" in
  Returns {| msgTopic := Some topic; msgPayload := payload |}.

Definition getFeatureProperties (obj : json) : json * bool :=
  let res :=
    match obj with
    | JObj feature =>
        let res :=
          match Go.mapGet valuePropertiesTag feature with
          | Some (JObj properties) => properties
          | _ => []
          end in
        match Go.mapGet valueDefinitionTag feature with
        | Some dObj => Go.mapSet valueDefinitionTag dObj res
        | None => res
        end
    | _ => []
    end in
  (JObj res, (0 <? length res)%nat).

(** The first component says whether the caller has to remove [data]. *)
Fixpoint _filterPayload (filters : list Regexp) (path : string) (data : json) : bool * json :=
  match data with
  | JObj mData =>
      let kept :=
        (fix each (l : list (string * json)) : list (string * json) :=
           match l with
           | [] => []
           | (name, value) :: r =>
               let '(rem, val) := _filterPayload filters (path ++ "/" ++ name) value in
               if rem then each r else (name, val) :: each r
           end) mData in
      ((length kept =? 0)%nat, JObj kept)
  | JArr aData =>
      let kept :=
        (fix each (index : nat) (l : list json) : list json :=
           match l with
           | [] => []
           | value :: r =>
               let '(rem, val) := _filterPayload filters (path ++ "/" ++ Go.itoa index) value in
               if rem then each (S index) r else val :: each (S index) r
           end) 0%nat aData in
      ((length kept =? 0)%nat, JArr kept)
  | _ => (existsb (fun filter => MatchString filter path) filters, data)
  end.

Definition filterPayload (h : deviceHandler) (data : json) : json :=
  if (0 <? length (payloadFilters h))%nat then
    let '(rem, value) := _filterPayload (payloadFilters h) "" data in
    if rem then JNull else value
  else data.

Definition isNil (value : json) : bool :=
  match value with
  | JNull => true
  | _ => false
  end.

(** The body of the callback run on the [features] map, for one entry. *)
Definition featureMessages (ext : Extern) (h : deviceHandler) (env : Envelope)
    (entry : string * json) : outcome (list Message) :=
  let '(featureName, feature) := entry in
  if isNil feature then
    do m <~ toShadowMessage ext h env featureName JNull; Returns [m]
  else
    let '(properties, ok) := getFeatureProperties feature in
    if ok then do m <~ toShadowMessage ext h env featureName properties; Returns [m]
    else Returns [].

Definition toShadowMessages (ext : Extern) (run : Run)
    (h : deviceHandler) (env : Envelope) : outcome (list Message * bool) :=
  do shadow <~ isShadowMessage h env;
  if shadow then
    match EnvTopic env with
    | None => Panics
    | Some topic =>
        if match topicFilter h with
           | Some re => MatchString re (Topic_String ext topic)
           | None => false
           end
        then Returns ([], true)
        else
          let value := integrate (Go.Split (Path env)) (Value env) in
          let value := filterPayload h value in
          if isNil value then Returns ([], true)
          else
            do attrs <~ match search valueAttributesTag value with
                     | Some attributes =>
                         do m <~ toShadowMessage ext h env "" (ofMap attributes); Returns [m]
                     | None => Returns []
                     end;
            do feats <~ match search valueFeaturesTag value with
                     | Some (Some features) =>
                         oforeach (featureMessages ext h env) (rangeOrder run features)
                     | _ => Returns []
                     end;
            Returns (attrs ++ feats, true)
    end
  else Returns ([], false).

Definition HandleMessage (ext : Extern) (run : Run)
    (h : deviceHandler) (msg : Message) : outcome (list Message * option error) :=
  match Envelope_Unmarshal ext (msgPayload msg) with
  | Some env =>
      do r <~ toShadowMessages ext run h env;
      let '(messages, ok) := r in
      if ok then Returns (messages, None) else Returns (defaultHandler h (clock run) msg)
  | None => Returns (defaultHandler h (clock run) msg)
  end.

End passthrough.

(** ** Package [state]: the shadow state handler *)

Module state.

Definition updateSuffix := "/update/accepted".
Definition deleteSuffix := "/delete/accepted".
Definition namedShadowAdditionTopicTemplate := "/name/+".

(** [fmt.Sprintf(topicBaseTemplate, d)]. *)
Definition topicBase (d : string) : string := "$aws/things/" ++ d ++ "/shadow".

Record shadowStateHandler : Type := {
  tenantID : string;
  deviceID : string;
  topics : string
}.

Definition Init (tenant device : string) : shadowStateHandler :=
  let base := topicBase device in
  {| tenantID := tenant;
     deviceID := device;
     topics := base ++ updateSuffix ++ "," ++
               base ++ deleteSuffix ++ "," ++
               base ++ namedShadowAdditionTopicTemplate ++ updateSuffix ++ "," ++
               base ++ namedShadowAdditionTopicTemplate ++ deleteSuffix |}.

(** [None] stands for the pair [(nil, false)]. *)
Definition find (name : string) (values : json) : option json :=
  match values with
  | JObj valuesMap =>
      match Go.mapGet name valuesMap with
      | None => None
      | Some JNull => None
      | Some result => Some result
      end
  | _ => None
  end.

Definition getReportedState (payload : json) : option json :=
  match find "state" payload with
  | None => None
  | Some state => find "reported" state
  end.

Definition shadowIDIndex : nat := 5.

Definition getShadowID (h : shadowStateHandler) (topic : string) : outcome string :=
  if negb (Go.Contains topic "/name/") then Returns (deviceID h)
  else match nth_error (Go.Split topic) shadowIDIndex with
       | Some id => Returns id
       | None => Panics
       end.

(** The package variable [shadows] is threaded through: the handler takes
    the current map and returns the map it leaves behind. *)
Definition HandleMessage (ext : Extern) (h : shadowStateHandler)
    (shadows : gmap string json) (message : Message)
    : outcome (gmap string json * (list Message * option error)) :=
  match msgTopic message with
  | None => Returns (shadows, ([], Some "No topic in context"))
  | Some topic =>
      do shadowID <~ getShadowID h topic;
      if Go.HasSuffix topic "/delete/accepted" then
        Returns (delete shadowID shadows, ([], None))
      else
        match json_Unmarshal ext (msgPayload message) with
        | None => Returns (shadows, ([], Some "Invalid json payload"))
        | Some payload =>
            match getReportedState payload with
            | None => Returns (shadows, ([], Some "Invalid Payload structure"))
            | Some reported => Returns (<[shadowID := reported]> shadows, ([], None))
            end
        end
  end.

(** A missing key reads as [nil]. *)
Definition GetCurrentShadowState (shadows : gmap string json) (shadowID : string) : json :=
  match shadows !! shadowID with
  | Some v => v
  | None => JNull
  end.

End state.

(** ** Package [bus]: the command request filter *)

Module bus.

Definition filter (ext : Extern) (deviceID : string)
    (h : Message -> list Message * option error)
    (msg : Message) : outcome (list Message * option error) :=
  match Envelope_Unmarshal ext (msgPayload msg) with
  | Some env =>
      match EnvTopic env with
      | None => Panics
      | Some topic =>
          let id := (Namespace topic ++ ":" ++ EntityName topic)%string in
          if String.eqb id deviceID || Go.HasPrefix id (deviceID ++ ":")%string
          then Returns (h msg)
          else Returns ([], None)
      end
  | None => Returns ([], None)
  end.

End bus.

(** ** Vocabulary of the specification

    The definitions of this module follow the words of the specification,
    not the code; the theorems below relate the two. *)

Module Spec.

(** The four kinds of shadow a publication can address. *)
Inductive shadowScope : Type :=
| RootAttributes
| RootFeature (F : string)
| ChildAttributes (C : string)
| ChildFeature (C F : string).

(** The topic templates of the data model, [T] being [update] or [delete]. *)
Definition templateTopic (D : string) (scope : shadowScope) (T : string) : string :=
  match scope with
  | RootAttributes => "$aws/things/" ++ D ++ "/shadow/" ++ T
  | RootFeature F => "$aws/things/" ++ D ++ "/shadow/name/" ++ F ++ "/" ++ T
  | ChildAttributes C => "$aws/things/" ++ D ++ "/shadow/name/" ++ C ++ "/" ++ T
  | ChildFeature C F => "$aws/things/" ++ D ++ "/shadow/name/" ++ C ++ ":" ++ F ++ "/" ++ T
  end.

(** Which scope a message addresses: the thing identity [T] of the
    envelope is the root [D] or a child [D:C], and the message is about
    the attributes (no feature name) or about the feature [F]. *)
Inductive scopeOf (D thing F : string) : shadowScope -> Prop :=
| scope_root_attributes :
    thing = D -> F = "" -> scopeOf D thing F RootAttributes
| scope_root_feature :
    thing = D -> F <> "" -> scopeOf D thing F (RootFeature F)
| scope_child_attributes C :
    thing = (D ++ ":" ++ C)%string -> F = "" -> scopeOf D thing F (ChildAttributes C)
| scope_child_feature C :
    thing = (D ++ ":" ++ C)%string -> F <> "" -> scopeOf D thing F (ChildFeature C F).


(** The [update] payload: the serialization of
    [{"state":{"reported": value}}] (empty when the encoder fails). *)
Definition updatePayload (ext : Extern) (value : json) : string :=
  match json_Marshal ext (JObj [("state", JObj [("reported", value)])]) with
  | Some bytes => bytes
  | None => ""
  end.

(** The synthesized paths [/seg/seg/idx] of the leaves of a value. *)
Fixpoint leafPaths (path : string) (data : json) : list string :=
  match data with
  | JObj fields =>
      (fix each (l : list (string * json)) : list string :=
         match l with
         | [] => []
         | (name, value) :: r => leafPaths (path ++ "/" ++ name) value ++ each r
         end) fields
  | JArr items =>
      (fix each (index : nat) (l : list json) : list string :=
         match l with
         | [] => []
         | value :: r => leafPaths (path ++ "/" ++ Go.itoa index) value ++ each (S index) r
         end) 0%nat items
  | _ => [path]
  end.

(** A path is excluded when some payload filter matches it. *)
Definition excluded (filters : list Regexp) (path : string) : Prop :=
  exists filter, In filter filters /\ MatchString filter path = true.

(** No object and no array inside the value is empty. *)
Fixpoint noEmptyContainer (data : json) : Prop :=
  match data with
  | JObj fields =>
      fields <> [] /\
      (fix each (l : list (string * json)) : Prop :=
         match l with
         | [] => True
         | (_, value) :: r => noEmptyContainer value /\ each r
         end) fields
  | JArr items =>
      items <> [] /\
      (fix each (l : list json) : Prop :=
         match l with
         | [] => True
         | value :: r => noEmptyContainer value /\ each r
         end) items
  | _ => True
  end.

(** The deep merge-and-tombstone of the transformer, step 9: keys of
    [next] keep their value (merged in depth), keys of [prev] missing
    from [next] appear with [null], arrays are merged index-wise and
    have the length of [next]. *)
Fixpoint merge (next prev : json) : json :=
  match next with
  | JObj nf =>
      match prev with
      | JObj pf =>
          let merged :=
            (fix each (l : list (string * json)) : list (string * json) :=
               match l with
               | [] => []
               | (k, v) :: r =>
                   (k, match Go.mapGet k pf with
                       | Some pv => merge v pv
                       | None => v
                       end) :: each r
               end) nf in
          let tombstones :=
            List.map (fun kv => (fst kv, JNull))
              (List.filter (fun kv => match Go.mapGet (fst kv) nf with
                                      | Some _ => false
                                      | None => true
                                      end) pf) in
          JObj (merged ++ tombstones)
      | _ => next
      end
  | JArr ni =>
      match prev with
      | JArr pi =>
          JArr ((fix each (l : list json) (p : list json) : list json :=
                   match l with
                   | [] => []
                   | v :: r =>
                       match p with
                       | [] => v :: each r []
                       | pv :: p' => merge v pv :: each r p'
                       end
                   end) ni pi)
      | _ => next
      end
  | _ => next
  end.

(** The reported object of the update: [next] merged against the mirror
    state [prev], or [next] verbatim when the mirror has none. *)
Definition reported (prev : option json) (next : json) : json :=
  match prev with
  | Some p => merge next p
  | None => next
  end.

(** [r] is the [state.reported] subtree of the payload [P]. *)
Definition reportedSubtree (P r : json) : Prop :=
  exists fields st,
    P = JObj fields /\ Go.mapGet "state" fields = Some (JObj st) /\
    Go.mapGet "reported" st = Some r /\ r <> JNull.

(** The accepted-notification topics the mirror subscribes to, [name]
    being the level matched by [+] when the shadow is a named one. *)
Definition acceptedTopic (D : string) (name : option string) (suffix : string) : string :=
  match name with
  | None => "$aws/things/" ++ D ++ "/shadow" ++ suffix
  | Some n => "$aws/things/" ++ D ++ "/shadow/name/" ++ n ++ suffix
  end.

(** Two decoded documents are the same JSON value: objects are compared
    as maps, whatever the order of their fields. *)
Inductive sameJson : json -> json -> Prop :=
| same_null : sameJson JNull JNull
| same_bool b : sameJson (JBool b) (JBool b)
| same_num n : sameJson (JNum n) (JNum n)
| same_str s : sameJson (JStr s) (JStr s)
| same_arr l1 l2 : Forall2 sameJson l1 l2 -> sameJson (JArr l1) (JArr l2)
| same_obj f1 f2 f2' :
    Permutation f2 f2' ->
    Forall2 (fun a b => fst a = fst b /\ sameJson (snd a) (snd b)) f1 f2' ->
    sameJson (JObj f1) (JObj f2).

(** The keys of an object. *)
Definition keys (v : json) : option (list string) :=
  match v with
  | JObj fields => Some (List.map fst fields)
  | _ => None
  end.

(** The thing identity [T] of an envelope topic. *)
Definition thingIdentity (t : Topic) : string := Namespace t ++ ":" ++ EntityName t.


(** The message [m] is addressed to the scope of the feature name [F]
    ([F] empty for the attributes): its topic is the template of that
    scope, with the target [update] or [delete]. *)
Definition addressed (D : string) (t : Topic) (F : string) (m : Message) : Prop :=
  exists scope T,
    scopeOf D (thingIdentity t) F scope /\
    (T = "update" \/ T = "delete") /\
    msgTopic m = Some (templateTopic D scope T).


(** The member [key] of a value that is an object. *)
Definition member (key : string) (V : json) : option json :=
  match V with
  | JObj fields => Go.mapGet key fields
  | _ => None
  end.

(** A value taken as a map: [null] when it is not an object. *)
Definition objectOrNull (v : json) : json :=
  match v with
  | JObj m => JObj m
  | _ => JNull
  end.

(** Step 7, attributes: when the filtered value has an [attributes]
    member, one message is due for the attributes, with the attributes
    object as its value; a member that is not an object (the [null] of a
    delete without a value) stands for no map, [null]. *)
Definition attributesScope (V : json) : list (string * json) :=
  match member "attributes" V with
  | Some attributes => [(""%string, objectOrNull attributes)]
  | None => []
  end.

(** Step 7, feature-properties: the entries of [feature.properties], with
    the key [definition] set to [feature.definition] when there is one. *)
Definition featureProperties (feature : json) : list (string * json) :=
  match feature with
  | JObj members =>
      let properties :=
        match Go.mapGet "properties" members with
        | Some (JObj properties) => properties
        | _ => []
        end in
      match Go.mapGet "definition" members with
      | Some definition => Go.mapSet "definition" definition properties
      | None => properties
      end
  | _ => []
  end.

(** Step 7, one feature: a [null] feature is due a message with the value
    [null]; another one is due a message with its feature-properties when
    these are not empty. *)
Definition featureScope (entry : string * json) : list (string * json) :=
  match snd entry with
  | JNull => [(fst entry, JNull)]
  | feature =>
      match featureProperties feature with
      | [] => []
      | properties => [(fst entry, JObj properties)]
      end
  end.

(** The entries of the [features] member of the filtered value. *)
Definition featureEntries (V : json) : option (list (string * json)) :=
  match member "features" V with
  | Some (JObj features) => Some features
  | _ => None
  end.

(** Steps 7 and 10: the scopes a message is due for, each with its feature
    name and value: the attributes first, then the features in the order
    in which the run visits the entries of the features map. *)
Definition scopes (order : list (string * json) -> list (string * json)) (V : json)
    : list (string * json) :=
  attributesScope V ++
  match featureEntries V with
  | Some features => flat_map featureScope (order features)
  | None => []
  end.

(** Steps 4 and 5: the value of the envelope integrated along its path,
    then filtered. *)
Definition reconstructed (h : passthrough.deviceHandler) (env : Envelope) : json :=
  passthrough.filterPayload h (passthrough.integrate (Go.Split (Path env)) (Value env)).

(** Step 3: a topic filter is configured and matches the topic. *)
Definition topicExcluded (ext : Extern) (h : passthrough.deviceHandler) (t : Topic) : bool :=
  match passthrough.topicFilter h with
  | Some re => MatchString re (Topic_String ext t)
  | None => false
  end.

(** The scopes a twin shadow envelope with topic [t] is due a message
    for: none when its topic is excluded. *)
Definition emissions (ext : Extern) (run : Run) (h : passthrough.deviceHandler)
    (env : Envelope) (t : Topic) : list (string * json) :=
  if topicExcluded ext h t then [] else scopes (rangeOrder run) (reconstructed h env).

(** The envelope is not rewritten: the payload is no envelope, or the
    envelope is no twin shadow message; the handler delegates to the
    pass-through handler. *)
Definition delegated (ext : Extern) (h : passthrough.deviceHandler) (msg : Message) : Prop :=
  match Envelope_Unmarshal ext (msgPayload msg) with
  | Some env => passthrough.isShadowMessage h env = Returns false
  | None => True
  end.

(** The entries of the features map of the message, none when there is no
    such map. *)
Definition featuresOf (ext : Extern) (h : passthrough.deviceHandler) (msg : Message)
    : list (string * json) :=
  match Envelope_Unmarshal ext (msgPayload msg) with
  | Some env =>
      match featureEntries (reconstructed h env) with
      | Some features => features
      | None => []
      end
  | None => []
  end.

(** The payload deserializes to an object whose only key is [state],
    whose value is an object whose only key is [reported]. *)
Definition stateReportedOnly (ext : Extern) (payload : string) : Prop :=
  exists doc members state,
    json_Unmarshal ext payload = Some doc /\
    doc = JObj members /\ keys doc = Some ["state"] /\
    Go.mapGet "state" members = Some state /\
    keys state = Some ["reported"].

End Spec.

(** ** A small implementation of what the handlers call

    The theorems hold for any [Extern]; this one is used to run the
    scenarios.  It writes and reads compact JSON text, with the fields of
    an object in their stored order and only the quote and the backslash
    escaped in strings; the envelope decoder reads the members the
    handlers use, and a topic of six segments. *)

Module Reference.

Definition dquote : ascii := "034"%char.
Definition backslash : ascii := "092"%char.

Definition isNumChar (c : ascii) : bool :=
  Ascii.eqb c "-"%char || ((48 <=? nat_of_ascii c)%nat && (nat_of_ascii c <=? 57)%nat).

(** [printX v rest] is the text of [v] followed by [rest]. *)
Fixpoint printChars (s rest : string) : string :=
  match s with
  | EmptyString => String dquote rest
  | String c r =>
      if Ascii.eqb c dquote || Ascii.eqb c backslash
      then String backslash (String c (printChars r rest))
      else String c (printChars r rest)
  end.

Definition printString (s rest : string) : string := String dquote (printChars s rest).

Definition printNumber (n : Z) (rest : string) : string :=
  (NilZero.string_of_int (Z.to_int n) ++ rest)%string.

Fixpoint printTo (v : json) (rest : string) : string :=
  match v with
  | JNull => ("null" ++ rest)%string
  | JBool true => ("true" ++ rest)%string
  | JBool false => ("false" ++ rest)%string
  | JNum n => printNumber n rest
  | JStr s => printString s rest
  | JArr items =>
      String "["
        ((fix each (l : list json) : string :=
            match l with
            | [] => String "]" rest
            | x :: r =>
                printTo x match r with
                          | [] => String "]" rest
                          | _ :: _ => String "," (each r)
                          end
            end) items)
  | JObj fields =>
      String "{"
        ((fix each (l : list (string * json)) : string :=
            match l with
            | [] => String "}" rest
            | (k, x) :: r =>
                printString k
                  (String ":"
                     (printTo x match r with
                                | [] => String "}" rest
                                | _ :: _ => String "," (each r)
                                end))
            end) fields)
  end.

Definition printItems (rest : string) : list json -> string :=
  fix each (l : list json) : string :=
    match l with
    | [] => String "]" rest
    | x :: r =>
        printTo x match r with
                  | [] => String "]" rest
                  | _ :: _ => String "," (each r)
                  end
    end.

Definition printFields (rest : string) : list (string * json) -> string :=
  fix each (l : list (string * json)) : string :=
    match l with
    | [] => String "}" rest
    | (k, x) :: r =>
        printString k
          (String ":"
             (printTo x match r with
                        | [] => String "}" rest
                        | _ :: _ => String "," (each r)
                        end))
    end.

Definition print (v : json) : string := printTo v "".

(** The characters of a string literal, after its opening quote. *)
Fixpoint parseChars (s : string) : option (string * string) :=
  match s with
  | EmptyString => None
  | String c r =>
      if Ascii.eqb c dquote then Some (EmptyString, r)
      else if Ascii.eqb c backslash then
        match r with
        | EmptyString => None
        | String e r' =>
            match parseChars r' with
            | Some (t, rest) => Some (String e t, rest)
            | None => None
            end
        end
      else
        match parseChars r with
        | Some (t, rest) => Some (String c t, rest)
        | None => None
        end
  end.

Fixpoint spanNumber (s : string) : string * string :=
  match s with
  | EmptyString => (EmptyString, EmptyString)
  | String c r =>
      if isNumChar c then let '(digits, rest) := spanNumber r in (String c digits, rest)
      else (EmptyString, s)
  end.

Definition parseNumber (s : string) : option (json * string) :=
  let '(digits, rest) := spanNumber s in
  match NilZero.int_of_string digits with
  | Some d => Some (JNum (Z.of_int d), rest)
  | None => None
  end.

Definition parseWord (word : string) (v : json) (s : string) : option (json * string) :=
  if String.prefix word s
  then Some (v, substring (String.length word) (String.length s - String.length word) s)
  else None.

Definition parseLiteral (s : string) : option (json * string) :=
  match parseWord "null" JNull s with
  | Some r => Some r
  | None =>
      match parseWord "true" (JBool true) s with
      | Some r => Some r
      | None => parseWord "false" (JBool false) s
      end
  end.

Fixpoint parseValue (fuel : nat) (s : string) : option (json * string) :=
  match fuel with
  | O => None
  | S fuel =>
      match s with
      | EmptyString => None
      | String c r =>
          if isNumChar c then parseNumber s
          else if Ascii.eqb c dquote then
            match parseChars r with
            | Some (t, rest) => Some (JStr t, rest)
            | None => None
            end
          else if Ascii.eqb c "[" then
            match parseItems fuel r with
            | Some (l, rest) => Some (JArr l, rest)
            | None =>
                match r with
                | String close rest =>
                    if Ascii.eqb close "]" then Some (JArr [], rest) else None
                | EmptyString => None
                end
            end
          else if Ascii.eqb c "{" then
            match parseFields fuel r with
            | Some (l, rest) => Some (JObj l, rest)
            | None =>
                match r with
                | String close rest =>
                    if Ascii.eqb close "}" then Some (JObj [], rest) else None
                | EmptyString => None
                end
            end
          else parseLiteral s
      end
  end
with parseItems (fuel : nat) (s : string) : option (list json * string) :=
  match fuel with
  | O => None
  | S fuel =>
      match parseValue fuel s with
      | Some (v, String c rest) =>
          if Ascii.eqb c "," then
            match parseItems fuel rest with
            | Some (l, rest') => Some (v :: l, rest')
            | None => None
            end
          else if Ascii.eqb c "]" then Some ([v], rest)
          else None
      | _ => None
      end
  end
with parseFields (fuel : nat) (s : string) : option (list (string * json) * string) :=
  match fuel with
  | O => None
  | S fuel =>
      match s with
      | String q r =>
          if Ascii.eqb q dquote then
            match parseChars r with
            | Some (k, String colon r2) =>
                if Ascii.eqb colon ":" then
                  match parseValue fuel r2 with
                  | Some (v, String c rest) =>
                      if Ascii.eqb c "," then
                        match parseFields fuel rest with
                        | Some (l, rest') => Some ((k, v) :: l, rest')
                        | None => None
                        end
                      else if Ascii.eqb c "}" then Some ([(k, v)], rest)
                      else None
                  | _ => None
                  end
                else None
            | _ => None
            end
          else None
      | EmptyString => None
      end
  end.

Definition parse (s : string) : option json :=
  match parseValue (String.length s) s with
  | Some (v, EmptyString) => Some v
  | _ => None
  end.

(** The fuel the parser needs for a document. *)
Fixpoint size (v : json) : nat :=
  match v with
  | JArr items =>
      S ((fix each (l : list json) : nat :=
            match l with
            | [] => 0
            | x :: r => S (size x + each r)
            end) items)
  | JObj fields =>
      S ((fix each (l : list (string * json)) : nat :=
            match l with
            | [] => 0
            | (_, x) :: r => S (size x + each r)
            end) fields)
  | _ => 1
  end.

Definition sizeItems : list json -> nat :=
  fix each (l : list json) : nat :=
    match l with
    | [] => 0
    | x :: r => S (size x + each r)
    end.

Definition sizeFields : list (string * json) -> nat :=
  fix each (l : list (string * json)) : nat :=
    match l with
    | [] => 0
    | (_, x) :: r => S (size x + each r)
    end.

(** A text that cannot continue a number. *)
Definition endsNumber (rest : string) : Prop :=
  match rest with
  | EmptyString => True
  | String c _ => isNumChar c = false
  end.

Fixpoint numeric (s : string) : bool :=
  match s with
  | EmptyString => true
  | String c r => isNumChar c && numeric r
  end.

(** A Ditto topic [namespace/entity/group/channel/criterion/action]. *)
Definition topicString (t : Topic) : string :=
  Namespace t ++ "/" ++ EntityName t ++ "/" ++ Group t ++ "/" ++
  Channel t ++ "/" ++ Criterion t ++ "/" ++ Action t.

Definition parseTopic (s : string) : option Topic :=
  match Go.Split s with
  | [ns; entity; group; channel; criterion; action] =>
      Some {| Namespace := ns; EntityName := entity; Group := group;
              Channel := channel; Criterion := criterion; Action := action |}
  | _ => None
  end.

(** Decoding into an envelope whose [Topic] starts as a nil pointer: a
    member that is absent or [null] leaves its field as it was, and a
    member of the wrong type is an error. *)
Definition unmarshalEnvelope (s : string) : option Envelope :=
  match parse s with
  | Some (JObj members) =>
      let value := match Go.mapGet "value" members with
                   | Some v => v
                   | None => JNull
                   end in
      match
        match Go.mapGet "path" members with
        | None | Some JNull => Some EmptyString
        | Some (JStr p) => Some p
        | Some _ => None
        end,
        match Go.mapGet "status" members with
        | None | Some JNull => Some 0%Z
        | Some (JNum n) => Some n
        | Some _ => None
        end,
        match Go.mapGet "topic" members with
        | None | Some JNull => Some None
        | Some (JStr t) =>
            match parseTopic t with
            | Some topic => Some (Some topic)
            | None => None
            end
        | Some _ => None
        end
      with
      | Some path, Some status, Some topic =>
          Some {| EnvTopic := topic; Path := path; Value := value; Status := status |}
      | _, _, _ => None
      end
  | _ => None
  end.

Definition extern : Extern := {|
  json_Marshal := fun v => Some (print v);
  json_Unmarshal := parse;
  Envelope_Unmarshal := unmarshalEnvelope;
  Topic_String := topicString
|}.

End Reference.

(** ** Scenarios

    The device [test:device] of the test suite, envelopes as the local
    broker delivers them, and accepted notifications as AWS sends them. *)

Module Scenario.

Definition ext : Extern := Reference.extern.

(** A run that visits map entries in their stored order, and one that
    visits them in the opposite order. *)
Definition inOrder : Run := {| rangeOrder := fun l => l; clock := 0 |}.
Definition reversed : Run := {| rangeOrder := @rev (string * json); clock := 0 |}.

(** Stand-in for the events handler of the suite connector: the payload
    is forwarded on the telemetry topic of the device (the timestamp
    header the real one adds from the clock is left out). *)
Definition forward (now : Z) (msg : Message) : list Message * option error :=
  ([{| msgTopic := Some "event/test-tenant-id/test:device";
       msgPayload := msgPayload msg |}], None).

Definition handler : passthrough.deviceHandler := {|
  passthrough.tenantID := "test-tenant-id";
  passthrough.deviceID := "test:device";
  passthrough.payloadFilters := [];
  passthrough.topicFilter := None;
  passthrough.defaultHandler := forward
|}.

(** Stand-in for the events handler with its timestamp, as TestEvents
    observes it: the envelope is forwarded on the telemetry topic with the
    time of the run in its header [x-timestamp]. *)
Definition stamp (now : Z) (msg : Message) : list Message * option error :=
  ([{| msgTopic := Some "event/test-tenant-id/test:device";
       msgPayload :=
         match Reference.parse (msgPayload msg) with
         | Some (JObj members) =>
             Reference.print
               (JObj (Go.mapSet "headers" (JObj [("x-timestamp", JNum now)]) members))
         | _ => msgPayload msg
         end |}], None).

Definition handlerStamping : passthrough.deviceHandler := {|
  passthrough.tenantID := "test-tenant-id";
  passthrough.deviceID := "test:device";
  passthrough.payloadFilters := [];
  passthrough.topicFilter := None;
  passthrough.defaultHandler := stamp
|}.

(** The regular expression [.*]. *)
Definition anything : Regexp := {| MatchString := fun _ => true |}.

Definition handlerTopicFilter : passthrough.deviceHandler := {|
  passthrough.tenantID := "test-tenant-id";
  passthrough.deviceID := "test:device";
  passthrough.payloadFilters := [];
  passthrough.topicFilter := Some anything;
  passthrough.defaultHandler := forward
|}.

Definition handlerPayloadFilter : passthrough.deviceHandler := {|
  passthrough.tenantID := "test-tenant-id";
  passthrough.deviceID := "test:device";
  passthrough.payloadFilters := [anything];
  passthrough.topicFilter := None;
  passthrough.defaultHandler := forward
|}.

Definition local (document : json) : Message :=
  {| msgTopic := Some "event"; msgPayload := Reference.print document |}.

Definition envelope (topic path : string) (value : json) : json :=
  JObj [("topic", JStr topic); ("path", JStr path); ("value", value)].

(** TestDeleteObsoleteRootFeatureProperty: the envelope, and the state
    the test stores for the shadow [test] before sending it. *)
Definition modifyFeature : json :=
  envelope "test/device/things/twin/commands/modify" "/features/test"
    (JObj [("properties", JObj [("status", JNum 200)])]).

Definition mirroredFeature : json :=
  JObj [("status", JNum 100); ("obsolete", JStr "true")].

(** A child feature property, as in TestHandleChildFeatureEvent. *)
Definition modifyChildProperty : json :=
  envelope "test/device:edge:containers/things/twin/commands/modify"
    "/features/test/properties/status" (JNum 200).

(** All attributes replaced by an empty object. *)
Definition modifyNoAttributes : json :=
  envelope "test/device/things/twin/commands/modify" "/attributes" (JObj []).

(** Two features in one envelope. *)
Definition modifyTwoFeatures : json :=
  envelope "test/device/things/twin/commands/modify" "/features"
    (JObj [("first", JObj [("properties", JObj [("x", JNum 1)])]);
           ("second", JObj [("properties", JObj [("y", JNum 2)])])]).

(** The attributes and two features in one envelope, as in the examples
    of the README, and the envelope decoded from it. *)
Definition modifyThing : json :=
  envelope "test/device/things/twin/commands/modify" "/"
    (JObj [("attributes", JObj [("location", JNum 44)]);
           ("features",
            JObj [("first", JObj [("properties", JObj [("x", JNum 1)])]);
                  ("second", JObj [("properties", JObj [("y", JNum 2)])])])]).

Definition modifyThingEnvelope : Envelope :=
  {| EnvTopic := Some {| Namespace := "test"; EntityName := "device"; Group := "things";
                         Channel := "twin"; Criterion := "commands"; Action := "modify" |};
     Path := "/";
     Value := JObj [("attributes", JObj [("location", JNum 44)]);
                    ("features",
                     JObj [("first", JObj [("properties", JObj [("x", JNum 1)])]);
                           ("second", JObj [("properties", JObj [("y", JNum 2)])])])];
     Status := 0 |}.

(** A later run, which visits map entries in the opposite order. *)
Definition later : Run := {| rangeOrder := @rev (string * json); clock := 1 |}.

(** The live message of TestEvents. *)
Definition liveMessage : json :=
  envelope "test/device/things/live/messages/heatUp" "/inbox/messages/heatUp" (JNum 47).

(** A JSON object without a [topic] member. *)
Definition noTopic : json := JObj [].

Definition mirror : state.shadowStateHandler := state.Init "test-tenant-id" "test:device".

Definition accepted (topic : string) (document : json) : Message :=
  {| msgTopic := Some topic; msgPayload := Reference.print document |}.

Definition reportedValue : json := JObj [("test", JStr "value")].

Definition acceptedState : json := JObj [("state", JObj [("reported", reportedValue)])].

Definition childUpdateAccepted : string :=
  "$aws/things/test:device/shadow/name/test:device:child/update/accepted".

Definition childDeleteAccepted : string :=
  "$aws/things/test:device/shadow/name/test:device:child/delete/accepted".

(** The command of TestFilter, and the inner handler of that test. *)
Definition installCommand : json :=
  JObj [("topic", JStr "test/device/things/live/messages/install")].

Definition PassthroughHandler (msg : Message) : list Message * option error :=
  ([msg], None).

(** A command addressed to another device, from TestFilterNotAccepted. *)
Definition foreignCommand : json :=
  JObj [("topic", JStr "test/devices/things/live/messages/install")].

(** The regular expressions [.*/unwanted$] and [.*/0/value$]. *)
Definition unwanted : Regexp := {| MatchString := fun s => Go.HasSuffix s "/unwanted" |}.
Definition firstValue : Regexp := {| MatchString := fun s => Go.HasSuffix s "/0/value" |}.

Definition handlerReadmeFilters : passthrough.deviceHandler := {|
  passthrough.tenantID := "test-tenant-id";
  passthrough.deviceID := "test:device";
  passthrough.payloadFilters := [unwanted; firstValue];
  passthrough.topicFilter := None;
  passthrough.defaultHandler := forward
|}.

(** The envelope of TestPayloadFilter. *)
Definition modifyChildProperties : json :=
  envelope "test/device:edge:containers/things/twin/commands/modify"
    "/features/test/properties"
    (JObj [("code", JArr [JObj [("value", JStr "test")];
                          JObj [("keep", JNum 201)];
                          JObj [("unwanted", JNum 500)]]);
           ("status", JNum 200);
           ("unwanted", JNum 1234)]).

(** The delete commands of TestDeleteEntireElements and
    TestDeleteOfInnerElements: they carry no value. *)
Definition deleteCommand (entity path : string) : json :=
  JObj [("topic", JStr ("test/" ++ entity ++ "/things/twin/commands/delete"));
        ("path", JStr path)].

(** An encoder that fails on every document. *)
Definition failingEncoder : Extern := {|
  json_Marshal := fun _ => None;
  json_Unmarshal := Reference.parse;
  Envelope_Unmarshal := Reference.unmarshalEnvelope;
  Topic_String := Reference.topicString
|}.

End Scenario.

(** ** Package [config]: the message filters of the settings *)

Module config.

(** [MessageFilterSettings], the part of [CloudSettings] that
    [CompileFilters] reads and writes: the configured expressions and what
    is compiled from them ([nil] is [None]). *)
Record MessageFilterSettings : Type := {
  TopicFilter : string;
  TopicFilterRegexp : option Regexp;
  PayloadFilters : list string;
  PayloadFiltersRegexp : list Regexp
}.

(** The loop over [settings.PayloadFilters]: every expression that
    compiles is appended to the compiled ones, and the first that does not
    ends the loop with its error. *)
Fixpoint compilePayloadFilters (compile : string -> Regexp + error)
    (filters : list string) (compiled : list Regexp) : list Regexp * option error :=
  match filters with
  | [] => (compiled, None)
  | v :: rest =>
      match compile v with
      | inl exp => compilePayloadFilters compile rest (compiled ++ [exp])
      | inr err => (compiled, Some err)
      end
  end.

(** [CompileFilters], [compile] being [regexp.Compile]: the settings it
    leaves behind and the error it returns. *)
Definition CompileFilters (compile : string -> Regexp + error)
    (settings : MessageFilterSettings) : MessageFilterSettings * option error :=
  let payload (topic : option Regexp) :=
    let '(compiled, err) :=
      compilePayloadFilters compile (PayloadFilters settings) (PayloadFiltersRegexp settings) in
    ({| TopicFilter := TopicFilter settings;
        TopicFilterRegexp := topic;
        PayloadFilters := PayloadFilters settings;
        PayloadFiltersRegexp := compiled |}, err) in
  if (0 <? String.length (TopicFilter settings))%nat then
    match compile (TopicFilter settings) with
    | inl exp => payload (Some exp)
    | inr err => (settings, Some err)
    end
  else payload (TopicFilterRegexp settings).

End config.

(** ** Observations on documents, paths and topics

    What the further properties are stated with. *)

Module View.

Definition nonEmpty (s : string) : bool := (0 <? String.length s)%nat.

(** Following the keys of nested objects. *)
Fixpoint descend (segments : list string) (v : json) : option json :=
  match segments with
  | [] => Some v
  | key :: rest =>
      match v with
      | JObj fields =>
          match Go.mapGet key fields with
          | Some inner => descend rest inner
          | None => None
          end
      | _ => None
      end
  end.

(** Some payload filter matches the path. *)
Definition matched (filters : list Regexp) (path : string) : bool :=
  existsb (fun filter => MatchString filter path) filters.

(** The leaves of a document, each with its synthesized path, in order. *)
Fixpoint leaves (path : string) (data : json) : list (string * json) :=
  match data with
  | JObj fields =>
      (fix each (l : list (string * json)) : list (string * json) :=
         match l with
         | [] => []
         | (name, value) :: r => leaves (path ++ "/" ++ name) value ++ each r
         end) fields
  | JArr items =>
      (fix each (index : nat) (l : list json) : list (string * json) :=
         match l with
         | [] => []
         | value :: r => leaves (path ++ "/" ++ Go.itoa index) value ++ each (S index) r
         end) 0%nat items
  | _ => [(path, data)]
  end.

Definition leavesOfFields (path : string) : list (string * json) -> list (string * json) :=
  fix each (l : list (string * json)) : list (string * json) :=
    match l with
    | [] => []
    | (name, value) :: r => leaves (path ++ "/" ++ name) value ++ each r
    end.

Definition leavesOfItems (path : string) : nat -> list json -> list (string * json) :=
  fix each (index : nat) (l : list json) : list (string * json) :=
    match l with
    | [] => []
    | value :: r => leaves (path ++ "/" ++ Go.itoa index) value ++ each (S index) r
    end.

(** The leaves of a document, in order, without their paths. *)
Fixpoint leafValues (data : json) : list json :=
  match data with
  | JObj fields =>
      (fix each (l : list (string * json)) : list json :=
         match l with
         | [] => []
         | (_, value) :: r => leafValues value ++ each r
         end) fields
  | JArr items =>
      (fix each (l : list json) : list json :=
         match l with
         | [] => []
         | value :: r => leafValues value ++ each r
         end) items
  | _ => [data]
  end.

Definition leafValuesOfFields : list (string * json) -> list json :=
  fix each (l : list (string * json)) : list json :=
    match l with
    | [] => []
    | (_, value) :: r => leafValues value ++ each r
    end.

Definition leafValuesOfItems : list json -> list json :=
  fix each (l : list json) : list json :=
    match l with
    | [] => []
    | value :: r => leafValues value ++ each r
    end.

(** The leaves no payload filter matches. *)
Definition survivors (filters : list Regexp) (path : string) (data : json) : list json :=
  List.map snd
    (List.filter (fun pv => negb (matched filters (fst pv))) (leaves path data)).

(** The loops of [_filterPayload] over the entries of a map and over the
    elements of a slice. *)
Definition keptFields (filters : list Regexp) (path : string)
    : list (string * json) -> list (string * json) :=
  fix each (l : list (string * json)) : list (string * json) :=
    match l with
    | [] => []
    | (name, value) :: r =>
        let '(rem, val) := passthrough._filterPayload filters (path ++ "/" ++ name) value in
        if rem then each r else (name, val) :: each r
    end.

Definition keptItems (filters : list Regexp) (path : string) : nat -> list json -> list json :=
  fix each (index : nat) (l : list json) : list json :=
    match l with
    | [] => []
    | value :: r =>
        let '(rem, val) :=
          passthrough._filterPayload filters (path ++ "/" ++ Go.itoa index) value in
        if rem then each (S index) r else val :: each (S index) r
    end.

(** The string has no slash: it is one segment of a topic. *)
Fixpoint slashFree (s : string) : bool :=
  match s with
  | EmptyString => true
  | String c r => negb (Ascii.eqb c "/"%char) && slashFree r
  end.

(** The name under which a scope is published below [shadow/name/], and
    the device identity for the attributes of the root thing. *)
Definition shadowKey (D : string) (scope : Spec.shadowScope) : string :=
  match scope with
  | Spec.RootAttributes => D
  | Spec.RootFeature F => F
  | Spec.ChildAttributes C => C
  | Spec.ChildFeature C F => C ++ ":" ++ F
  end.

(** The usable properties of a feature: the entries of its [properties]
    member when that is an object. *)
Definition propertiesOf (feature : list (string * json)) : list (string * json) :=
  match Go.mapGet "properties" feature with
  | Some (JObj properties) => properties
  | _ => []
  end.

(** A map handed over as [map[string]interface{}]: [nil] unless the value
    is an object. *)
Definition asMap (v : json) : json :=
  match v with
  | JObj m => JObj m
  | _ => JNull
  end.

(** The conditions under which an envelope with topic [t] is a twin
    shadow message for the device [D]. *)
Definition twinCommand (D : string) (env : Envelope) (t : Topic) : Prop :=
  Status env = 0%Z /\ Group t = "things" /\
  (Spec.thingIdentity t = D \/ exists C, Spec.thingIdentity t = (D ++ ":" ++ C)%string) /\
  Channel t = "twin" /\ Criterion t = "commands" /\
  (Action t = "create" \/ Action t = "modify" \/ Action t = "merge" \/ Action t = "delete").

End View.

(** ** Further inputs

    Envelopes, settings and a compiler of expressions for the further
    properties. *)

Module Cases.

(** A twin command on the definition of the thing. *)
Definition modifyDefinition : json :=
  Scenario.envelope "test/device/things/twin/commands/modify" "/definition"
    (JStr "org.eclipse.kanto:Edge:1.0.0").

(** A twin command on one attribute, as in the examples of the README. *)
Definition modifyAttribute : json :=
  Scenario.envelope "test/device/things/twin/commands/modify" "/attributes/test"
    (JObj [("location", JNum 44)]).

(** The decoded topic and envelope of [Scenario.modifyFeature]. *)
Definition modifyTopic : Topic :=
  {| Namespace := "test"; EntityName := "device"; Group := "things"; Channel := "twin";
     Criterion := "commands"; Action := "modify" |}.

Definition modifyFeatureEnvelope : Envelope :=
  {| EnvTopic := Some modifyTopic;
     Path := "/features/test";
     Value := JObj [("properties", JObj [("status", JNum 200)])];
     Status := 0 |}.

Definition modifyAttributeEnvelope : Envelope :=
  {| EnvTopic := Some modifyTopic;
     Path := "/attributes/test";
     Value := JObj [("location", JNum 44)];
     Status := 0 |}.

(** The decoded envelope of [Scenario.modifyChildProperty]. *)
Definition modifyChildPropertyEnvelope : Envelope :=
  {| EnvTopic := Some {| Namespace := "test"; EntityName := "device:edge:containers";
                         Group := "things"; Channel := "twin";
                         Criterion := "commands"; Action := "modify" |};
     Path := "/features/test/properties/status";
     Value := JNum 200;
     Status := 0 |}.

(** The value of TestPayloadFilter and what the filters of the README
    leave of it. *)
Definition unfiltered : json :=
  JObj [("code", JArr [JObj [("value", JStr "test")];
                       JObj [("keep", JNum 201)];
                       JObj [("unwanted", JNum 500)]]);
        ("status", JNum 200);
        ("unwanted", JNum 1234)].

Definition wanted : json :=
  JObj [("code", JArr [JObj [("keep", JNum 201)]]); ("status", JNum 200)].

(** Objects and arrays without a leaf. *)
Definition hollow : json := JObj [("code", JArr [JObj []]); ("status", JObj [])].

(** Stand-in for [regexp.Compile]: an opening bracket alone is refused, as
    in TestPayloadFilterInvalid; any other expression is taken as the
    suffix a matching string must have. *)
Definition compile (expr : string) : Regexp + error :=
  if String.eqb expr "[" then inr "error parsing regexp: missing closing ]"%string
  else inl {| MatchString := fun s => Go.HasSuffix s expr |}.

Definition settings (topic : string) (payload : list string) : config.MessageFilterSettings :=
  {| config.TopicFilter := topic;
     config.TopicFilterRegexp := None;
     config.PayloadFilters := payload;
     config.PayloadFiltersRegexp := [] |}.

End Cases.

(** * Lemmas *)

(** ** Strings *)

Section Strings.

Lemma length_append (s1 s2 : string) :
  String.length (s1 ++ s2) = (String.length s1 + String.length s2)%nat.
Proof. induction s1 as [|c s1 IH]; simpl; [reflexivity | now rewrite IH]. Qed.

Lemma append_assoc (s1 s2 s3 : string) : ((s1 ++ s2) ++ s3 = s1 ++ (s2 ++ s3))%string.
Proof. induction s1 as [|c s1 IH]; simpl; [reflexivity | now rewrite IH]. Qed.

Lemma append_nil_r (s : string) : (s ++ "")%string = s.
Proof. induction s as [|c s IH]; simpl; [reflexivity | now rewrite IH]. Qed.


(** Two decompositions with tails of the same length are the same. *)
Lemma append_inv_tail_length (p q a b : string) :
  String.length a = String.length b ->
  (p ++ a = q ++ b)%string -> p = q /\ a = b.
Proof.
  revert q. induction p as [|c p IH]; intros [|d q] Hlen H; simpl in *.
  - auto.
  - subst a. simpl in Hlen. rewrite length_append in Hlen. lia.
  - subst b. simpl in Hlen. rewrite length_append in Hlen. lia.
  - injection H as -> H. destruct (IH q Hlen H) as [-> ->]. auto.
Qed.

Lemma prefix_append (p r : string) : String.prefix p (p ++ r) = true.
Proof.
  induction p as [|c p IH]; simpl.
  - now destruct r.
  - destruct (ascii_dec c c) as [_|n]; [exact IH | now destruct n].
Qed.

Lemma prefix_inv (p s : string) :
  String.prefix p s = true -> exists r, s = (p ++ r)%string.
Proof.
  revert s. induction p as [|c p IH]; intros s H.
  - exists s. reflexivity.
  - destruct s as [|d s]; simpl in H; [discriminate|].
    destruct (ascii_dec c d) as [->|_]; [|discriminate].
    destruct (IH s H) as [r ->]. exists r. reflexivity.
Qed.

Lemma substring_all (s : string) : substring 0 (String.length s) s = s.
Proof. induction s as [|c s IH]; simpl; [reflexivity | now rewrite IH]. Qed.

Lemma substring_skip (p r : string) (m : nat) :
  substring (String.length p) m (p ++ r) = substring 0 m r.
Proof. induction p as [|c p IH]; simpl; [reflexivity | exact IH]. Qed.

Lemma sliceFrom_append (p r : string) :
  Go.sliceFrom (p ++ r) (String.length p) = Returns r.
Proof.
  unfold Go.sliceFrom. rewrite length_append.
  replace (String.length p <=? String.length p + String.length r)%nat with true
    by (symmetry; apply Nat.leb_le; lia).
  replace (String.length p + String.length r - String.length p)%nat
    with (String.length r) by lia.
  now rewrite substring_skip, substring_all.
Qed.

Lemma HasSuffix_append (p suf : string) : Go.HasSuffix (p ++ suf) suf = true.
Proof.
  unfold Go.HasSuffix. rewrite length_append.
  replace (String.length suf <=? String.length p + String.length suf)%nat with true
    by (symmetry; apply Nat.leb_le; lia).
  replace (String.length p + String.length suf - String.length suf)%nat
    with (String.length p) by lia.
  rewrite substring_skip, substring_all. simpl. apply String.eqb_refl.
Qed.

Lemma substring_decompose (n m : nat) (s : string) :
  (n + m <= String.length s)%nat ->
  exists p q, s = (p ++ substring n m s ++ q)%string /\ String.length p = n.
Proof.
  revert m s. induction n as [|n IH]; intros m s Hlen.
  - exists ""%string. simpl. revert s Hlen. induction m as [|m IHm]; intros s Hlen.
    + exists s. destruct s; auto.
    + destruct s as [|c s]; simpl in *; [lia|].
      destruct (IHm s ltac:(lia)) as [q [Hq _]].
      exists q. split; [|reflexivity]. simpl in Hq. now rewrite <- Hq.
  - destruct s as [|c s]; simpl in *; [lia|].
    destruct (IH m s ltac:(lia)) as [p [q [Hs Hp]]].
    exists (String c p), q. simpl. split; [now rewrite <- Hs | now rewrite Hp].
Qed.

Lemma HasSuffix_inv (s suf : string) :
  Go.HasSuffix s suf = true -> exists p, s = (p ++ suf)%string.
Proof.
  unfold Go.HasSuffix. intros H. apply andb_true_iff in H as [Hle Heq].
  apply Nat.leb_le in Hle. apply String.eqb_eq in Heq.
  destruct (substring_decompose (String.length s - String.length suf)
              (String.length suf) s ltac:(lia)) as [p [q [Hs Hp]]].
  rewrite Heq in Hs. exists p.
  assert (Hq : String.length q = 0%nat).
  { apply (f_equal String.length) in Hs. rewrite !length_append in Hs. lia. }
  destruct q; [|discriminate]. now rewrite append_nil_r in Hs.
Qed.

(** A topic cannot end with two different suffixes of the same length. *)
Lemma HasSuffix_exclusive (s suf1 suf2 : string) :
  String.length suf1 = String.length suf2 -> suf1 <> suf2 ->
  Go.HasSuffix s suf1 = true -> Go.HasSuffix s suf2 = false.
Proof.
  intros Hlen Hne H1. destruct (Go.HasSuffix s suf2) eqn:H2; [|reflexivity].
  apply HasSuffix_inv in H1 as [p1 ->]. apply HasSuffix_inv in H2 as [p2 H2].
  destruct (append_inv_tail_length _ _ _ _ Hlen H2) as [_ ?]. contradiction.
Qed.

End Strings.

(** ** The outcome monad *)

Lemma obind_returns {A B : Type} (o : outcome A) (k : A -> outcome B) (b : B) :
  obind o k = Returns b -> exists a, o = Returns a /\ k a = Returns b.
Proof. destruct o as [a|]; simpl; intros H; [eauto | discriminate]. Qed.

Section Outcome.

Context {A B : Type}.

Lemma oforeach_Forall (P : B -> Prop) (f : A -> outcome (list B)) (l : list A) (r : list B) :
  (forall a bs, f a = Returns bs -> Forall P bs) ->
  oforeach f l = Returns r -> Forall P r.
Proof.
  intros Hf. revert r. induction l as [|a l IH]; simpl; intros r H.
  - injection H as <-. constructor.
  - apply obind_returns in H as [bs [Ha H]].
    apply obind_returns in H as [rest [Hl H]]. injection H as <-.
    apply Forall_app. split; [eapply Hf; eauto | apply IH; exact Hl].
Qed.

Lemma oforeach_total (f : A -> outcome (list B)) (l : list A) :
  (forall a, exists bs, f a = Returns bs) -> exists r, oforeach f l = Returns r.
Proof.
  intros Hf. induction l as [|a l [rest IH]]; simpl; [eauto|].
  destruct (Hf a) as [bs ->]. rewrite IH. simpl. eauto.
Qed.

End Outcome.

(** When each step answers with one result for each element of [g a], in
    order, the loop answers with one result for each element of
    [flat_map g l], in order. *)
Lemma oforeach_flat_map {A B C : Type} (R : C -> B -> Prop) (g : A -> list C)
    (f : A -> outcome (list B)) (l : list A) :
  (forall a, exists bs, f a = Returns bs /\ Forall2 R (g a) bs) ->
  exists r, oforeach f l = Returns r /\ Forall2 R (flat_map g l) r.
Proof.
  intros Hf. induction l as [|a l [rest [IH Hrest]]]; simpl.
  - exists []. split; [reflexivity | constructor].
  - destruct (Hf a) as [bs [-> Hbs]]. rewrite IH. simpl.
    exists (bs ++ rest). split; [reflexivity | now apply Forall2_app].
Qed.

(** A relation that is the graph of a function relates a list to its
    image. *)
Lemma Forall2_graph {A B : Type} (f : A -> B) (l : list A) (r : list B) :
  Forall2 (fun a b => f a = b) l r -> r = List.map f l.
Proof. induction 1 as [|a b l r Hab _ IH]; simpl; [reflexivity | now rewrite Hab, IH]. Qed.

(** ** The device handler *)

Section DeviceHandler.

Variable ext : Extern.
Variable h : passthrough.deviceHandler.

Local Abbreviation D := (passthrough.deviceID h).


(** A twin shadow message has a topic, addresses the root thing [D] or a
    child [D:C], and carries one of the four twin commands. *)
Lemma isShadowMessage_inv (env : Envelope) :
  passthrough.isShadowMessage h env = Returns true ->
  exists t, EnvTopic env = Some t /\
    (passthrough.thingID t = D \/ exists C, passthrough.thingID t = (D ++ ":" ++ C)%string) /\
    Status env = 0%Z /\ Group t = "things" /\ Channel t = "twin" /\
    Criterion t = "commands" /\
    (Action t = "create" \/ Action t = "modify" \/ Action t = "merge" \/ Action t = "delete").
Proof.
  unfold passthrough.isShadowMessage, passthrough.isDittoRequest.
  destruct (EnvTopic env) as [t|]; simpl; [|discriminate].
  intros H. injection H as H. exists t. split; [reflexivity|].
  apply andb_true_iff in H as [H Hact]. apply andb_true_iff in H as [H Hcrit].
  apply andb_true_iff in H as [H Hchan]. apply andb_true_iff in H as [H Hid].
  apply andb_true_iff in H as [Hst Hgrp].
  apply Z.eqb_eq in Hst. apply String.eqb_eq in Hgrp, Hchan, Hcrit.
  repeat split; try assumption.
  - apply orb_true_iff in Hid as [Hid|Hid].
    + left. apply String.eqb_eq. exact Hid.
    + right. apply prefix_inv in Hid as [C HC]. exists C.
      rewrite HC. apply append_assoc.
  - repeat (apply orb_true_iff in Hact as [Hact|Hact]);
      apply String.eqb_eq in Hact; auto.
Qed.

(** [toShadowTopic] instantiates the template of the scope addressed. *)
Lemma toShadowTopic_spec (t : Topic) (F : string) (value : json) :
  (passthrough.thingID t = D \/ exists C, passthrough.thingID t = (D ++ ":" ++ C)%string) ->
  exists scope, Spec.scopeOf D (passthrough.thingID t) F scope /\
    passthrough.toShadowTopic h (Some t) F value =
      Returns (if String.eqb (Action t) "delete" && passthrough.isEntireShadow value
               then (Spec.templateTopic D scope "delete", false)
               else (Spec.templateTopic D scope "update", true)).
Proof.
  intros Hid. unfold passthrough.toShadowTopic. fold D.
  change ActionDelete with "delete".
  destruct (String.eqb (Action t) "delete" && passthrough.isEntireShadow value);
    (destruct Hid as [Hid|[C Hid]]; rewrite Hid;
     [ rewrite Nat.eqb_refl; destruct (String.eqb_spec F "") as [HF|HF];
       [ exists Spec.RootAttributes | exists (Spec.RootFeature F) ];
       (split; [constructor; (reflexivity || assumption) | reflexivity])
     | replace (String.length D =? String.length (D ++ ":" ++ C))%nat with false
         by (symmetry; apply Nat.eqb_neq; rewrite length_append; simpl; lia);
       replace (String.length D + 1)%nat with (String.length (D ++ ":"))
         by (rewrite length_append; reflexivity);
       rewrite <- (append_assoc D ":" C), sliceFrom_append; simpl;
       rewrite (append_assoc D ":" C);
       destruct (String.eqb_spec F "") as [HF|HF];
       [ exists (Spec.ChildAttributes C) | exists (Spec.ChildFeature C F) ];
       (split; [constructor; (reflexivity || assumption) | reflexivity]) ]).
Qed.

(** Every template ends with a slash and the target. *)
Lemma templateTopic_target_last (scope : Spec.shadowScope) (T : string) :
  exists pre, Spec.templateTopic D scope T = (pre ++ "/" ++ T)%string.
Proof.
  destruct scope as [|F|C|C F]; unfold Spec.templateTopic.
  - exists ("$aws/things/" ++ D ++ "/shadow")%string.
    now rewrite !append_assoc.
  - exists ("$aws/things/" ++ D ++ "/shadow/name/" ++ F)%string.
    now rewrite !append_assoc.
  - exists ("$aws/things/" ++ D ++ "/shadow/name/" ++ C)%string.
    now rewrite !append_assoc.
  - exists ("$aws/things/" ++ D ++ "/shadow/name/" ++ C ++ ":" ++ F)%string.
    now rewrite !append_assoc.
Qed.

(** One shadow message: the topic of the scope addressed, and either the
    [delete] target with no payload or the [update] target with the
    value under [state.reported]. *)
Lemma toShadowMessage_spec (env : Envelope) (t : Topic) (F : string) (value : json) :
  EnvTopic env = Some t ->
  (passthrough.thingID t = D \/ exists C, passthrough.thingID t = (D ++ ":" ++ C)%string) ->
  exists scope, Spec.scopeOf D (passthrough.thingID t) F scope /\
    passthrough.toShadowMessage ext h env F value =
      Returns (if String.eqb (Action t) "delete" && passthrough.isEntireShadow value
               then {| msgTopic := Some (Spec.templateTopic D scope "delete");
                       msgPayload := "" |}
               else {| msgTopic := Some (Spec.templateTopic D scope "update");
                       msgPayload := Spec.updatePayload ext value |}).
Proof.
  intros Ht Hid. destruct (toShadowTopic_spec t F value Hid) as [scope [Hsc Htopic]].
  exists scope. split; [exact Hsc|].
  unfold passthrough.toShadowMessage. rewrite Ht, Htopic.
  destruct (String.eqb (Action t) "delete" && passthrough.isEntireShadow value);
    reflexivity.
Qed.

(** Every message of the shadow branch is built by [toShadowMessage]. *)
Lemma toShadowMessages_elements (run : Run) (env : Envelope) (msgs : list Message) (ok : bool) :
  passthrough.toShadowMessages ext run h env = Returns (msgs, ok) ->
  Forall (fun m => exists F value, passthrough.toShadowMessage ext h env F value = Returns m) msgs.
Proof.
  unfold passthrough.toShadowMessages. intros H.
  apply obind_returns in H as [shadow [_ H]].
  destruct shadow; [|injection H as <- _; constructor].
  destruct (EnvTopic env) as [t|]; [|discriminate].
  destruct (match passthrough.topicFilter h with
            | Some re => MatchString re (Topic_String ext t)
            | None => false
            end); [injection H as <- _; constructor|].
  destruct (passthrough.isNil _); [injection H as <- _; constructor|].
  apply obind_returns in H as [attrs [Hattrs H]].
  apply obind_returns in H as [feats [Hfeats H]]. injection H as <- _.
  apply Forall_app. split.
  - destruct (passthrough.search passthrough.valueAttributesTag _) as [attributes|].
    + apply obind_returns in Hattrs as [m [Hm Hattrs]]. injection Hattrs as <-.
      repeat constructor. eauto.
    + injection Hattrs as <-. constructor.
  - destruct (passthrough.search passthrough.valueFeaturesTag _) as [[features|]|];
      try (injection Hfeats as <-; constructor).
    eapply oforeach_Forall; [|exact Hfeats].
    intros [featureName feature] bs. unfold passthrough.featureMessages.
    destruct (passthrough.isNil feature).
    + intros Hb. apply obind_returns in Hb as [m [Hm Hb]]. injection Hb as <-.
      repeat constructor. eauto.
    + destruct (passthrough.getFeatureProperties feature) as [properties [|]].
      * intros Hb. apply obind_returns in Hb as [m [Hm Hb]]. injection Hb as <-.
        repeat constructor. eauto.
      * intros Hb. injection Hb as <-. constructor.
Qed.

(** The shadow branch never panics and always claims the envelope. *)
Lemma toShadowMessages_total (run : Run) (env : Envelope) :
  passthrough.isShadowMessage h env = Returns true ->
  exists msgs, passthrough.toShadowMessages ext run h env = Returns (msgs, true).
Proof.
  intros Hs. destruct (isShadowMessage_inv env Hs) as [t [Ht [Hid _]]].
  assert (Hmsg : forall F value, exists m,
             passthrough.toShadowMessage ext h env F value = Returns m).
  { intros F value. destruct (toShadowMessage_spec env t F value Ht Hid) as [sc [_ ->]].
    eauto. }
  unfold passthrough.toShadowMessages. rewrite Hs, Ht. simpl.
  destruct (match passthrough.topicFilter h with
            | Some re => MatchString re (Topic_String ext t)
            | None => false
            end); [eauto|].
  destruct (passthrough.isNil _); [eauto|].
  assert (Ha : exists attrs,
             match passthrough.search passthrough.valueAttributesTag
                     (passthrough.filterPayload h
                        (passthrough.integrate (Go.Split (Path env)) (Value env))) with
             | Some attributes =>
                 do m <~ passthrough.toShadowMessage ext h env "" (passthrough.ofMap attributes);
                 Returns [m]
             | None => Returns []
             end = Returns attrs).
  { destruct (passthrough.search passthrough.valueAttributesTag _) as [a|]; [|eauto].
    destruct (Hmsg "" (passthrough.ofMap a)) as [m ->]. simpl. eauto. }
  destruct Ha as [attrs ->]. simpl.
  assert (Hf : exists feats,
             match passthrough.search passthrough.valueFeaturesTag
                     (passthrough.filterPayload h
                        (passthrough.integrate (Go.Split (Path env)) (Value env))) with
             | Some (Some features) =>
                 oforeach (passthrough.featureMessages ext h env) (rangeOrder run features)
             | _ => Returns []
             end = Returns feats).
  { destruct (passthrough.search passthrough.valueFeaturesTag _) as [[f|]|]; eauto.
    apply oforeach_total. intros [featureName feature].
    unfold passthrough.featureMessages. destruct (passthrough.isNil feature).
    - destruct (Hmsg featureName JNull) as [m ->]. simpl. eauto.
    - destruct (passthrough.getFeatureProperties feature) as [properties [|]]; [|eauto].
      destruct (Hmsg featureName properties) as [m ->]. simpl. eauto. }
  destruct Hf as [feats ->]. simpl. eauto.
Qed.

(** On a twin shadow envelope the handler answers with the messages of
    the shadow branch and no error. *)
Lemma HandleMessage_shadow (run : Run) (msg : Message) (env : Envelope) :
  Envelope_Unmarshal ext (msgPayload msg) = Some env ->
  passthrough.isShadowMessage h env = Returns true ->
  exists msgs, passthrough.toShadowMessages ext run h env = Returns (msgs, true) /\
               passthrough.HandleMessage ext run h msg = Returns (msgs, None).
Proof.
  intros Hp Hs. destruct (toShadowMessages_total run env Hs) as [msgs Hm].
  exists msgs. split; [exact Hm|].
  unfold passthrough.HandleMessage. now rewrite Hp, Hm.
Qed.

(** [getFeatureProperties] computes the feature-properties and says
    whether there is one. *)
Lemma getFeatureProperties_spec (feature : json) :
  passthrough.getFeatureProperties feature =
    (JObj (Spec.featureProperties feature),
     (0 <? length (Spec.featureProperties feature))%nat).
Proof. destruct feature; reflexivity. Qed.



(** The messages of one entry of the features map are the ones of its
    scope. *)
Lemma featureMessages_scope (R : string * json -> Message -> Prop) (env : Envelope)
    (entry : string * json) :
  (forall F value, exists m,
      passthrough.toShadowMessage ext h env F value = Returns m /\ R (F, value) m) ->
  exists ms, passthrough.featureMessages ext h env entry = Returns ms /\
             Forall2 R (Spec.featureScope entry) ms.
Proof.
  intros Hmsg. destruct entry as [F feature].
  unfold passthrough.featureMessages, Spec.featureScope. cbn [fst snd].
  destruct (passthrough.isNil feature) eqn:En.
  - destruct feature; try discriminate En.
    destruct (Hmsg F JNull) as [m [-> Hm]]. simpl. eexists. split; [reflexivity|].
    repeat constructor. exact Hm.
  - rewrite getFeatureProperties_spec.
    assert (Hgoal : exists ms,
               (if (0 <? length (Spec.featureProperties feature))%nat
                then do m <~ passthrough.toShadowMessage ext h env F
                               (JObj (Spec.featureProperties feature)); Returns [m]
                else Returns []) = Returns ms /\
               Forall2 R match Spec.featureProperties feature with
                         | [] => []
                         | kv :: props => [(F, JObj (kv :: props))]
                         end ms).
    { destruct (Spec.featureProperties feature) as [|kv props] eqn:Ep; simpl.
      - exists []. split; [reflexivity | constructor].
      - destruct (Hmsg F (JObj (kv :: props))) as [m [-> Hm]]. simpl.
        eexists. split; [reflexivity|]. repeat constructor. exact Hm. }
    destruct feature; try discriminate En; exact Hgoal.
Qed.

(** The shadow branch emits one message for each scope of the envelope,
    in order: the one [toShadowMessage] builds for it. *)
Lemma toShadowMessages_emissions (R : string * json -> Message -> Prop) (run : Run)
    (env : Envelope) (t : Topic) :
  passthrough.isShadowMessage h env = Returns true ->
  EnvTopic env = Some t ->
  (forall F value, exists m,
      passthrough.toShadowMessage ext h env F value = Returns m /\ R (F, value) m) ->
  exists msgs, passthrough.toShadowMessages ext run h env = Returns (msgs, true) /\
               Forall2 R (Spec.emissions ext run h env t) msgs.
Proof.
  intros Hs Ht Hmsg.
  unfold passthrough.toShadowMessages, Spec.emissions, Spec.topicExcluded.
  rewrite Hs, Ht. simpl.
  destruct (match passthrough.topicFilter h with
            | Some re => MatchString re (Topic_String ext t)
            | None => false
            end); [exists []; split; [reflexivity | constructor]|].
  change (passthrough.filterPayload h (passthrough.integrate (Go.Split (Path env)) (Value env)))
    with (Spec.reconstructed h env).
  unfold Spec.scopes, Spec.attributesScope, Spec.featureEntries, Spec.member.
  change passthrough.valueAttributesTag with "attributes"%string.
  change passthrough.valueFeaturesTag with "features"%string.
  destruct (Spec.reconstructed h env) as [| b | n | s | items | fields];
    try (exists []; split; [reflexivity | constructor]).
  cbn [passthrough.isNil passthrough.search].
  assert (Ha : exists attrs,
             match match Go.mapGet "attributes" fields with
                   | Some (JObj v3) => Some (Some v3)
                   | Some _ => Some None
                   | None => None
                   end with
             | Some attributes =>
                 do m <~ passthrough.toShadowMessage ext h env "" (passthrough.ofMap attributes);
                 Returns [m]
             | None => Returns []
             end = Returns attrs /\
             Forall2 R match Go.mapGet "attributes" fields with
                       | Some attributes => [(""%string, Spec.objectOrNull attributes)]
                       | None => []
                       end attrs).
  { destruct (Go.mapGet "attributes" fields) as [a|];
      [|exists []; split; [reflexivity | constructor]].
    destruct (Hmsg "" (Spec.objectOrNull a)) as [m [Hm HR]].
    exists [m]. split; [|repeat constructor; exact HR].
    destruct a; simpl in Hm |- *; rewrite Hm; reflexivity. }
  destruct Ha as [attrs [-> Hattrs]]. simpl.
  assert (Hf : exists feats,
             match match Go.mapGet "features" fields with
                   | Some (JObj v3) => Some (Some v3)
                   | Some _ => Some None
                   | None => None
                   end with
             | Some (Some features) =>
                 oforeach (passthrough.featureMessages ext h env) (rangeOrder run features)
             | _ => Returns []
             end = Returns feats /\
             Forall2 R match match Go.mapGet "features" fields with
                             | Some (JObj features) => Some features
                             | _ => None
                             end with
                       | Some features => flat_map Spec.featureScope (rangeOrder run features)
                       | None => []
                       end feats).
  { destruct (Go.mapGet "features" fields) as [[| b | n | s | items | features]|];
      try (exists []; split; [reflexivity | constructor]).
    apply oforeach_flat_map. intros entry. now apply featureMessages_scope. }
  destruct Hf as [feats [-> Hfeats]]. simpl.
  exists (attrs ++ feats). split; [reflexivity | now apply Forall2_app].
Qed.

End DeviceHandler.

(** ** Topics and payloads of the shadow publications *)

Section ShadowPublications.

Variable ext : Extern.
Variable run : Run.
Variable h : passthrough.deviceHandler.

Local Abbreviation D := (passthrough.deviceID h).


(** C10. Whatever a twin shadow envelope contains, the handler returns a
    nil error and one message for each scope of the envelope, whether or
    not the encoder works: a message whose document the encoder fails on
    is emitted all the same, with an empty payload. *)
Theorem shadow_branch_reports_no_error (msg : Message) (env : Envelope) :
  Envelope_Unmarshal ext (msgPayload msg) = Some env ->
  passthrough.isShadowMessage h env = Returns true ->
  exists t msgs,
    EnvTopic env = Some t /\
    passthrough.HandleMessage ext run h msg = Returns (msgs, None) /\
    Forall2 (fun scoped m =>
               Spec.addressed D t (fst scoped) m /\
               (json_Marshal ext
                  (passthrough.integrate
                     [passthrough.valueStateTag; passthrough.valueReportedTag] (snd scoped))
                = None -> msgPayload m = ""%string))
      (Spec.emissions ext run h env t) msgs.
Proof.
  intros Hp Hs. destruct (isShadowMessage_inv h env Hs) as [t [Ht [Hid _]]].
  destruct (toShadowMessages_emissions ext h
              (fun scoped m =>
                 Spec.addressed D t (fst scoped) m /\
                 (json_Marshal ext
                    (passthrough.integrate
                       [passthrough.valueStateTag; passthrough.valueReportedTag] (snd scoped))
                  = None -> msgPayload m = ""%string))
              run env t Hs Ht) as [msgs [Hm HR]].
  { intros F value.
    destruct (toShadowMessage_spec ext h env t F value Ht Hid) as [scope [Hsc ->]].
    eexists. split; [reflexivity|]. cbn [fst snd].
    change (passthrough.integrate
              [passthrough.valueStateTag; passthrough.valueReportedTag] value)
      with (JObj [("state"%string, JObj [("reported"%string, value)])]).
    unfold Spec.updatePayload, Spec.addressed.
    change (Spec.thingIdentity t) with (passthrough.thingID t).
    destruct (String.eqb (Action t) "delete" && passthrough.isEntireShadow value); simpl.
    - split; [exists scope, "delete"%string; auto | reflexivity].
    - split; [exists scope, "update"%string; auto|]. intros ->. reflexivity. }
  exists t, msgs. split; [exact Ht|]. split; [|exact HR].
  unfold passthrough.HandleMessage. now rewrite Hp, Hm.
Qed.

(** C6, amended. A twin shadow envelope whose topic string matches the
    configured topic filter is dropped: the handler emits no message. *)
Theorem topic_filter_drops_shadow_envelope (msg : Message) (env : Envelope)
    (t : Topic) (re : Regexp) :
  Envelope_Unmarshal ext (msgPayload msg) = Some env ->
  passthrough.isShadowMessage h env = Returns true ->
  EnvTopic env = Some t ->
  passthrough.topicFilter h = Some re ->
  MatchString re (Topic_String ext t) = true ->
  passthrough.HandleMessage ext run h msg = Returns ([], None).
Proof.
  intros Hp Hs Ht Hre Hmatch.
  unfold passthrough.HandleMessage, passthrough.toShadowMessages.
  rewrite Hp, Hs. simpl. rewrite Ht, Hre, Hmatch. reflexivity.
Qed.

End ShadowPublications.

(** ** Payload filtering *)

(** Induction over a document, with the property known for every member of
    an array and for every value of an object. *)
Lemma json_nested_ind (P : json -> Prop) :
  P JNull -> (forall b, P (JBool b)) -> (forall n, P (JNum n)) -> (forall s, P (JStr s)) ->
  (forall items, Forall P items -> P (JArr items)) ->
  (forall fields, Forall (fun kv => P (snd kv)) fields -> P (JObj fields)) ->
  forall data, P data.
Proof.
  intros Hnull Hbool Hnum Hstr Harr Hobj.
  fix IH 1. intros [| b | n | s | items | fields].
  - exact Hnull.
  - apply Hbool.
  - apply Hnum.
  - apply Hstr.
  - apply Harr. induction items as [|x items IHitems]; constructor; [apply IH | exact IHitems].
  - apply Hobj. induction fields as [|[k v] fields IHfields]; constructor;
      [apply IH | exact IHfields].
Qed.

Section PayloadFilter.

Variable filters : list Regexp.

Lemma existsb_excluded (path : string) :
  Spec.excluded filters path ->
  existsb (fun filter => MatchString filter path) filters = true.
Proof.
  intros [f [Hin Hm]]. apply existsb_exists. exists f. split; assumption.
Qed.

(** When every leaf is excluded the value is reported for removal. *)
Lemma _filterPayload_all_excluded (data : json) :
  forall path, Forall (Spec.excluded filters) (Spec.leafPaths path data) ->
               fst (passthrough._filterPayload filters path data) = true.
Proof.
  induction data as [| b | n | s | items IH | fields IH] using json_nested_ind;
    intros path Hall; simpl in *;
    try (apply existsb_excluded; inversion Hall; assumption).
  - lazymatch goal with
    | Hall : Forall _ (?leaves 0%nat items) |- context [?each 0%nat items] =>
        enough (Hk : forall index,
                   Forall (Spec.excluded filters) (leaves index items) ->
                   each index items = [])
          by (rewrite (Hk 0%nat Hall); reflexivity)
    end.
    clear Hall. induction IH as [|x items Hx _ IHitems]; intros index Hl; [reflexivity|].
    simpl in Hl |- *. apply Forall_app in Hl as [Hl1 Hl2].
    specialize (Hx _ Hl1).
    destruct (passthrough._filterPayload filters _ x) as [rem val].
    simpl in Hx. subst rem. apply IHitems. exact Hl2.
  - lazymatch goal with
    | Hall : Forall _ (?leaves fields) |- context [?each fields] =>
        enough (Hk : Forall (Spec.excluded filters) (leaves fields) -> each fields = [])
          by (rewrite (Hk Hall); reflexivity)
    end.
    clear Hall. induction IH as [|[name x] fields Hx _ IHfields]; intros Hl; [reflexivity|].
    simpl in Hl, Hx |- *. apply Forall_app in Hl as [Hl1 Hl2].
    specialize (Hx _ Hl1).
    destruct (passthrough._filterPayload filters _ x) as [rem val].
    simpl in Hx. subst rem. apply IHfields. exact Hl2.
Qed.

(** What is kept holds no empty object and no empty array. *)
Lemma _filterPayload_noEmptyContainer (data : json) :
  forall path, fst (passthrough._filterPayload filters path data) = false ->
               Spec.noEmptyContainer (snd (passthrough._filterPayload filters path data)).
Proof.
  induction data as [| b | n | s | items IH | fields IH] using json_nested_ind;
    intros path Hkeep; simpl in *; try exact I.
  - split.
    + intros Hnil. rewrite Hnil in Hkeep. discriminate.
    + clear Hkeep. generalize 0%nat as index.
      induction IH as [|x items Hx _ IHitems]; intros index; [exact I|].
      simpl. specialize (Hx (path ++ "/" ++ Go.itoa index)%string). simpl in Hx.
      destruct (passthrough._filterPayload filters _ x) as [[|] val]; simpl in Hx.
      * apply IHitems.
      * split; [apply Hx; reflexivity | apply IHitems].
  - split.
    + intros Hnil. rewrite Hnil in Hkeep. discriminate.
    + clear Hkeep.
      induction IH as [|[name x] fields Hx _ IHfields]; [exact I|].
      simpl in Hx |- *. specialize (Hx (path ++ "/" ++ name)%string). simpl in Hx.
      destruct (passthrough._filterPayload filters _ x) as [[|] val]; simpl in Hx.
      * apply IHfields.
      * split; [apply Hx; reflexivity | apply IHfields].
Qed.

(** With a filter configured, the filtered document is [nil] or free of
    empty containers, and it is [nil] when every leaf is excluded. *)
Lemma filterPayload_spec (h : passthrough.deviceHandler) (data : json) :
  passthrough.payloadFilters h = filters -> filters <> [] ->
  Spec.noEmptyContainer (passthrough.filterPayload h data) /\
  (Forall (Spec.excluded filters) (Spec.leafPaths "" data) ->
   passthrough.filterPayload h data = JNull).
Proof.
  intros Hf Hne.
  assert (Hlen : (0 <? length filters)%nat = true)
    by (destruct filters; [contradiction | reflexivity]).
  unfold passthrough.filterPayload. rewrite Hf, Hlen.
  pose proof (_filterPayload_noEmptyContainer data "") as Hkeep.
  pose proof (_filterPayload_all_excluded data "") as Hdrop.
  destruct (passthrough._filterPayload filters "" data) as [[|] value]; simpl in *.
  - split; [exact I | reflexivity].
  - split; [apply Hkeep; reflexivity|]. intros Hall. specialize (Hdrop Hall). discriminate.
Qed.

End PayloadFilter.

(** ** Dropped envelopes and repeated runs *)

Section DroppedAndRepeated.

Variable ext : Extern.
Variable h : passthrough.deviceHandler.

(** C7, amended. When at least one payload filter is configured and every
    leaf of the reconstructed value of a twin shadow envelope has a
    synthesized path matched by some filter, the handler emits no message;
    and the filtered value holds no empty container: what becomes empty
    is removed. *)
Theorem payload_filter_drops_excluded_value (run : Run) (msg : Message) (env : Envelope) :
  Envelope_Unmarshal ext (msgPayload msg) = Some env ->
  passthrough.isShadowMessage h env = Returns true ->
  passthrough.payloadFilters h <> [] ->
  (Forall (Spec.excluded (passthrough.payloadFilters h))
     (Spec.leafPaths "" (passthrough.integrate (Go.Split (Path env)) (Value env))) ->
   passthrough.HandleMessage ext run h msg = Returns ([], None)) /\
  Spec.noEmptyContainer
    (passthrough.filterPayload h (passthrough.integrate (Go.Split (Path env)) (Value env))).
Proof.
  intros Hp Hs Hne.
  destruct (filterPayload_spec (passthrough.payloadFilters h) h
              (passthrough.integrate (Go.Split (Path env)) (Value env)) eq_refl Hne)
    as [Hclean Hdrop].
  split; [|exact Hclean]. intros Hall.
  destruct (isShadowMessage_inv h env Hs) as [t [Ht _]].
  unfold passthrough.HandleMessage, passthrough.toShadowMessages.
  rewrite Hp, Hs. simpl. rewrite Ht, (Hdrop Hall).
  destruct (match passthrough.topicFilter h with
            | Some re => MatchString re (Topic_String ext t)
            | None => false
            end); reflexivity.
Qed.

Lemma flat_map_none {A B : Type} (l : list A) : flat_map (fun _ : A => @nil B) l = [].
Proof. induction l; simpl; auto. Qed.

Lemma map_flat_map {A B C : Type} (g : B -> C) (f : A -> list B) (l : list A) :
  List.map g (flat_map f l) = flat_map (fun a => List.map g (f a)) l.
Proof. induction l as [|a l IH]; simpl; [reflexivity | now rewrite List.map_app, IH]. Qed.

Lemma featureScope_length (entry : string * json) : (length (Spec.featureScope entry) <= 1)%nat.
Proof.
  unfold Spec.featureScope.
  destruct (snd entry); simpl; try lia;
    match goal with |- context [match ?p with [] => _ | _ :: _ => _ end] => destruct p end;
    simpl; lia.
Qed.

(** C9, amended. Two runs of the handler on the same message emit the
    same messages, in the same order but for the messages of the features:
    both runs emit the same leading messages, followed by the same message
    (at most one) for each entry of the features map, in the order in which
    the run visits these entries.  So the sequences are equal when both
    runs visit the entries in the same order, and hold the same messages
    when the two orders hold the same entries.  For a message that is
    delegated, the pass-through handler is taken to return the same
    messages both times. *)
Theorem repeated_run_same_messages (run1 run2 : Run) (msg : Message)
    (msgs1 msgs2 : list Message) (err1 err2 : option error) :
  passthrough.HandleMessage ext run1 h msg = Returns (msgs1, err1) ->
  passthrough.HandleMessage ext run2 h msg = Returns (msgs2, err2) ->
  (Spec.delegated ext h msg ->
   fst (passthrough.defaultHandler h (clock run1) msg) =
   fst (passthrough.defaultHandler h (clock run2) msg)) ->
  exists first perFeature,
    (forall entry, (length (perFeature entry) <= 1)%nat) /\
    msgs1 = first ++ flat_map perFeature (rangeOrder run1 (Spec.featuresOf ext h msg)) /\
    msgs2 = first ++ flat_map perFeature (rangeOrder run2 (Spec.featuresOf ext h msg)) /\
    (rangeOrder run1 (Spec.featuresOf ext h msg) = rangeOrder run2 (Spec.featuresOf ext h msg) ->
     msgs1 = msgs2) /\
    (Permutation (rangeOrder run1 (Spec.featuresOf ext h msg))
                 (rangeOrder run2 (Spec.featuresOf ext h msg)) ->
     Permutation msgs1 msgs2).
Proof.
  intros H1 H2 Hagree.
  enough (Hform : exists first perFeature,
             (forall entry, (length (perFeature entry) <= 1)%nat) /\
             msgs1 = first ++ flat_map perFeature (rangeOrder run1 (Spec.featuresOf ext h msg)) /\
             msgs2 = first ++ flat_map perFeature (rangeOrder run2 (Spec.featuresOf ext h msg))).
  { destruct Hform as [first [perFeature [Hlen [-> ->]]]].
    exists first, perFeature. repeat split; try assumption; try reflexivity.
    - intros ->. reflexivity.
    - intros Hperm. apply Permutation_app_head. now apply Permutation_flat_map. }
  assert (Hdelegated : Spec.delegated ext h msg ->
                       passthrough.HandleMessage ext run1 h msg =
                         Returns (passthrough.defaultHandler h (clock run1) msg) ->
                       passthrough.HandleMessage ext run2 h msg =
                         Returns (passthrough.defaultHandler h (clock run2) msg) ->
                       exists first perFeature,
                         (forall entry, (length (perFeature entry) <= 1)%nat) /\
                         msgs1 = first ++ flat_map perFeature
                                   (rangeOrder run1 (Spec.featuresOf ext h msg)) /\
                         msgs2 = first ++ flat_map perFeature
                                   (rangeOrder run2 (Spec.featuresOf ext h msg))).
  { intros Hd Hd1 Hd2. specialize (Hagree Hd).
    rewrite Hd1 in H1. rewrite Hd2 in H2.
    destruct (passthrough.defaultHandler h (clock run1) msg) as [out1 e1].
    destruct (passthrough.defaultHandler h (clock run2) msg) as [out2 e2].
    simpl in Hagree. injection H1 as <- _. injection H2 as <- _. subst out2.
    exists out1, (fun _ => []). split; [intros _; simpl; lia|].
    rewrite !flat_map_none, app_nil_r. auto. }
  clear Hagree. unfold passthrough.HandleMessage in H1, H2.
  destruct (Envelope_Unmarshal ext (msgPayload msg)) as [env|] eqn:Hp.
  2: { apply Hdelegated; unfold Spec.delegated, passthrough.HandleMessage;
         rewrite Hp; reflexivity. }
  destruct (passthrough.isShadowMessage h env) as [[|]|] eqn:Hs.
  - destruct (isShadowMessage_inv h env Hs) as [t [Ht [Hid _]]].
    pose (g := fun scoped : string * json =>
                 match passthrough.toShadowMessage ext h env (fst scoped) (snd scoped) with
                 | Returns m => m
                 | Panics => {| msgTopic := None; msgPayload := "" |}
                 end).
    assert (Hmsg : forall F value, exists m,
               passthrough.toShadowMessage ext h env F value = Returns m /\
               g (F, value) = m).
    { intros F value. unfold g. cbn [fst snd].
      destruct (toShadowMessage_spec ext h env t F value Ht Hid) as [scope [_ ->]]. eauto. }
    destruct (toShadowMessages_emissions ext h (fun scoped m => g scoped = m)
                run1 env t Hs Ht Hmsg) as [out1 [Hm1 HR1]].
    destruct (toShadowMessages_emissions ext h (fun scoped m => g scoped = m)
                run2 env t Hs Ht Hmsg) as [out2 [Hm2 HR2]].
    rewrite Hm1 in H1. rewrite Hm2 in H2. simpl in H1, H2.
    injection H1 as <- _. injection H2 as <- _.
    apply Forall2_graph in HR1, HR2. rewrite HR1, HR2. clear Hdelegated.
    unfold Spec.featuresOf. rewrite Hp. unfold Spec.emissions, Spec.scopes.
    destruct (Spec.topicExcluded ext h t).
    + exists [], (fun _ => []). split; [intros _; simpl; lia|].
      rewrite !flat_map_none. auto.
    + destruct (Spec.featureEntries (Spec.reconstructed h env)) as [features|].
      * exists (List.map g (Spec.attributesScope (Spec.reconstructed h env))),
               (fun entry => List.map g (Spec.featureScope entry)).
        split; [intros entry; rewrite length_map; apply featureScope_length|].
        rewrite !List.map_app, !map_flat_map. auto.
      * exists (List.map g (Spec.attributesScope (Spec.reconstructed h env))), (fun _ => []).
        split; [intros _; simpl; lia|].
        rewrite !flat_map_none, !app_nil_r. auto.
  - apply Hdelegated; unfold Spec.delegated, passthrough.HandleMessage; rewrite Hp;
      [exact Hs | |]; unfold passthrough.toShadowMessages; rewrite Hs; reflexivity.
  - unfold passthrough.toShadowMessages in H1. rewrite Hs in H1. discriminate H1.
Qed.

End DroppedAndRepeated.

(** ** The shadow state handler *)

Section SplitSegments.

Lemma Split_nonempty (s : string) : Go.Split s <> [].
Proof.
  induction s as [|c s IH]; simpl; [discriminate|].
  destruct (Ascii.eqb c "/"); [discriminate|].
  destruct (Go.Split s); [contradiction | discriminate].
Qed.

(** Joining two strings joins their last and first segments. *)
Lemma Split_append_length (a b : string) :
  (length (Go.Split (a ++ b)) + 1 = length (Go.Split a) + length (Go.Split b))%nat.
Proof.
  induction a as [|c a IH]; simpl; [lia|].
  destruct (Ascii.eqb c "/"); simpl; [lia|].
  pose proof (Split_nonempty (a ++ b)) as Hab. pose proof (Split_nonempty a) as Ha.
  destruct (Go.Split (a ++ b)); [contradiction|].
  destruct (Go.Split a); [contradiction|]. simpl in *. lia.
Qed.

Lemma Split_length_pos (s : string) : (1 <= length (Go.Split s))%nat.
Proof. pose proof (Split_nonempty s). destruct (Go.Split s); [contradiction | simpl; lia]. Qed.

(** The topics the mirror subscribes to have at least six segments. *)
Lemma acceptedTopic_segments (D : string) (name : option string) (suffix : string) :
  suffix = "/update/accepted" \/ suffix = "/delete/accepted" ->
  (6 <= length (Go.Split (Spec.acceptedTopic D name suffix)))%nat.
Proof.
  intros Hsuf. unfold Spec.acceptedTopic.
  assert (Hs : length (Go.Split suffix) = 3%nat) by (destruct Hsuf; subst; reflexivity).
  pose proof (Split_length_pos D) as HD.
  destruct name as [n|].
  - pose proof (Split_length_pos n) as Hn.
    pose proof (Split_append_length "$aws/things/" (D ++ "/shadow/name/" ++ n ++ suffix)) as H1.
    pose proof (Split_append_length D ("/shadow/name/" ++ n ++ suffix)) as H2.
    pose proof (Split_append_length "/shadow/name/" (n ++ suffix)) as H3.
    pose proof (Split_append_length n suffix) as H4.
    change (length (Go.Split "$aws/things/")) with 3%nat in H1.
    change (length (Go.Split "/shadow/name/")) with 4%nat in H3. lia.
  - pose proof (Split_append_length "$aws/things/" (D ++ "/shadow" ++ suffix)) as H1.
    pose proof (Split_append_length D ("/shadow" ++ suffix)) as H2.
    pose proof (Split_append_length "/shadow" suffix) as H3.
    change (length (Go.Split "$aws/things/")) with 3%nat in H1.
    change (length (Go.Split "/shadow")) with 2%nat in H3. lia.
Qed.

End SplitSegments.

Section ShadowState.

Variable ext : Extern.
Variable h : state.shadowStateHandler.

Local Abbreviation D := (state.deviceID h).

(** The identifier is the sixth segment of a topic that contains
    [/name/], and the device identity otherwise. *)
Lemma getShadowID_rule (topic id : string) :
  state.getShadowID h topic = Returns id ->
  (Go.Contains topic "/name/" = true /\ nth_error (Go.Split topic) 5 = Some id) \/
  (Go.Contains topic "/name/" = false /\ id = D).
Proof.
  unfold state.getShadowID, state.shadowIDIndex.
  destruct (Go.Contains topic "/name/"); cbn [negb].
  - destruct (nth_error (Go.Split topic) 5) as [s|]; intros H; [|discriminate H].
    injection H as ->. left. auto.
  - intros H. injection H as <-. right. auto.
Qed.

Lemma getShadowID_subscribed (name : option string) (suffix : string) :
  suffix = "/update/accepted" \/ suffix = "/delete/accepted" ->
  exists id, state.getShadowID h (Spec.acceptedTopic D name suffix) = Returns id.
Proof.
  intros Hsuf. pose proof (acceptedTopic_segments D name suffix Hsuf) as Hlen.
  unfold state.getShadowID, state.shadowIDIndex.
  destruct (negb _); [eauto|].
  destruct (nth_error (Go.Split (Spec.acceptedTopic D name suffix)) 5) as [id|] eqn:E;
    [eauto|].
  apply nth_error_None in E. lia.
Qed.

Lemma getReportedState_spec (P r : json) :
  state.getReportedState P = Some r <-> Spec.reportedSubtree P r.
Proof.
  unfold state.getReportedState, state.find, Spec.reportedSubtree. split.
  - destruct P as [| | | | |fields]; try discriminate.
    destruct (Go.mapGet "state" fields) as [[| | | | |st]|] eqn:Est; try discriminate.
    destruct (Go.mapGet "reported" st) as [v|] eqn:Erep; [|discriminate].
    intros H. exists fields, st.
    destruct v; simpl in H; try discriminate; injection H as <-;
      repeat split; auto; discriminate.
  - intros [fields [st [-> [Hst [Hrep Hnn]]]]]. rewrite Hst, Hrep.
    destruct r; try reflexivity. contradiction.
Qed.

(** The handler on an accepted update: the reported state replaces the
    entry of the shadow, or the payload is rejected and nothing changes. *)
Lemma HandleMessage_update (shadows : gmap string json) (topic payload id : string) :
  Go.HasSuffix topic "/update/accepted" = true ->
  state.getShadowID h topic = Returns id ->
  state.HandleMessage ext h shadows {| msgTopic := Some topic; msgPayload := payload |} =
    match json_Unmarshal ext payload with
    | None => Returns (shadows, ([], Some "Invalid json payload"))
    | Some P =>
        match state.getReportedState P with
        | None => Returns (shadows, ([], Some "Invalid Payload structure"))
        | Some reported => Returns (<[id := reported]> shadows, ([], None))
        end
    end.
Proof.
  intros Hsuf Hid. unfold state.HandleMessage. simpl. rewrite Hid. simpl.
  rewrite (HasSuffix_exclusive topic "/update/accepted" "/delete/accepted");
    [reflexivity | reflexivity | discriminate | exact Hsuf].
Qed.

Lemma HandleMessage_delete (shadows : gmap string json) (topic payload id : string) :
  Go.HasSuffix topic "/delete/accepted" = true ->
  state.getShadowID h topic = Returns id ->
  state.HandleMessage ext h shadows {| msgTopic := Some topic; msgPayload := payload |} =
    Returns (delete id shadows, ([], None)).
Proof.
  intros Hsuf Hid. unfold state.HandleMessage. simpl. rewrite Hid. simpl.
  now rewrite Hsuf.
Qed.

Lemma acceptedTopic_suffix (name : option string) (suffix : string) :
  Go.HasSuffix (Spec.acceptedTopic D name suffix) suffix = true.
Proof.
  unfold Spec.acceptedTopic. destruct name as [n|].
  - rewrite <- !append_assoc. apply HasSuffix_append.
  - rewrite <- !append_assoc. apply HasSuffix_append.
Qed.

(** C4. After an accepted update whose payload [P] is well formed, the
    current state of the shadow identifier derived from the topic (its
    sixth segment when the topic contains [/name/], the device identity
    otherwise) is exactly the [state.reported] subtree of [P], whatever
    was stored before; after an accepted delete on the same shadow
    identifier the current state is none. *)
Theorem mirror_follows_accepted_notifications
    (shadows later : gmap string json) (up del payload payload' id : string) (P r : json) :
  Go.HasSuffix up "/update/accepted" = true ->
  state.getShadowID h up = Returns id ->
  json_Unmarshal ext payload = Some P ->
  Spec.reportedSubtree P r ->
  Go.HasSuffix del "/delete/accepted" = true ->
  state.getShadowID h del = Returns id ->
  ((Go.Contains up "/name/" = true /\ nth_error (Go.Split up) 5 = Some id) \/
   (Go.Contains up "/name/" = false /\ id = D)) /\
  (exists shadows1,
      state.HandleMessage ext h shadows {| msgTopic := Some up; msgPayload := payload |} =
        Returns (shadows1, ([], None)) /\
      state.GetCurrentShadowState shadows1 id = r) /\
  (exists shadows2,
      state.HandleMessage ext h later {| msgTopic := Some del; msgPayload := payload' |} =
        Returns (shadows2, ([], None)) /\
      state.GetCurrentShadowState shadows2 id = JNull).
Proof.
  intros Hup Hid HP Hr Hdel Hid'. split; [exact (getShadowID_rule up id Hid)|]. split.
  - exists (<[id := r]> shadows). split.
    + rewrite (HandleMessage_update shadows up payload id Hup Hid), HP.
      apply getReportedState_spec in Hr. now rewrite Hr.
    + unfold state.GetCurrentShadowState. now rewrite lookup_insert_eq.
  - exists (delete id later). split.
    + exact (HandleMessage_delete later del payload' id Hdel Hid').
    + unfold state.GetCurrentShadowState. now rewrite lookup_delete_eq.
Qed.

(** C5. On an update-accepted topic, a payload that is not valid JSON or
    has no [state.reported] to extract makes the handler return an error
    and leave the mirror as it was; on a delete-accepted topic the
    handler succeeds whatever the payload is, without decoding it. *)
Theorem malformed_update_rejected_delete_accepted
    (shadows : gmap string json) (name : option string) (payload : string) :
  (json_Unmarshal ext payload = None \/
   exists P, json_Unmarshal ext payload = Some P /\ forall r, ~ Spec.reportedSubtree P r) ->
  (exists e,
      state.HandleMessage ext h shadows
        {| msgTopic := Some (Spec.acceptedTopic D name "/update/accepted");
           msgPayload := payload |} = Returns (shadows, ([], Some e))) /\
  (exists id, forall (ext' : Extern) (payload' : string),
      state.HandleMessage ext' h shadows
        {| msgTopic := Some (Spec.acceptedTopic D name "/delete/accepted");
           msgPayload := payload' |} = Returns (delete id shadows, ([], None))).
Proof.
  intros Hbad. split.
  - destruct (getShadowID_subscribed name "/update/accepted" ltac:(auto)) as [id Hid].
    rewrite (HandleMessage_update shadows _ payload id
               (acceptedTopic_suffix name "/update/accepted") Hid).
    destruct Hbad as [-> | [P [-> Hno]]]; [eauto|].
    destruct (state.getReportedState P) as [r|] eqn:Er; [|eauto].
    apply getReportedState_spec in Er. now destruct (Hno r).
  - destruct (getShadowID_subscribed name "/delete/accepted" ltac:(auto)) as [id Hid].
    exists id. intros ext' payload'. unfold state.HandleMessage. simpl.
    fold D. rewrite Hid. simpl. now rewrite acceptedTopic_suffix.
Qed.

End ShadowState.

(** ** The command request filter *)

Section CommandFilter.

Variable ext : Extern.
Variable deviceID : string.
Variable inner : Message -> list Message * option error.

(** A payload that is no envelope is dropped. *)
Lemma filter_unparseable (msg : Message) :
  Envelope_Unmarshal ext (msgPayload msg) = None ->
  bus.filter ext deviceID inner msg = Returns ([], None).
Proof. intros H. unfold bus.filter. now rewrite H. Qed.

(** X19. An envelope with a topic goes to the inner handler exactly when
    its thing identity is the device or one of its children, and is
    dropped without an error otherwise. *)
Lemma filter_forwards_iff (msg : Message) (env : Envelope) (t : Topic) :
  Envelope_Unmarshal ext (msgPayload msg) = Some env ->
  EnvTopic env = Some t ->
  let T := (Namespace t ++ ":" ++ EntityName t)%string in
  ((T = deviceID \/ exists C, T = (deviceID ++ ":" ++ C)%string) ->
   bus.filter ext deviceID inner msg = Returns (inner msg)) /\
  (~ (T = deviceID \/ exists C, T = (deviceID ++ ":" ++ C)%string) ->
   bus.filter ext deviceID inner msg = Returns ([], None)).
Proof.
  intros Hp Ht T. unfold bus.filter. rewrite Hp, Ht. fold T. split.
  - intros [HT | [C HC]].
    + rewrite HT, String.eqb_refl. reflexivity.
    + rewrite HC. unfold Go.HasPrefix.
      rewrite <- (append_assoc deviceID ":" C), prefix_append, orb_true_r. reflexivity.
  - intros Hn.
    destruct (String.eqb_spec T deviceID) as [HT|_]; [destruct Hn; auto|].
    destruct (Go.HasPrefix T (deviceID ++ ":")) eqn:Hpre; [|reflexivity].
    apply prefix_inv in Hpre as [C HC]. destruct Hn. right. exists C.
    rewrite HC. apply append_assoc.
Qed.

(** An envelope that was decoded without a topic makes the filter
    dereference a nil pointer. *)
Lemma filter_nil_topic (msg : Message) (env : Envelope) :
  Envelope_Unmarshal ext (msgPayload msg) = Some env ->
  EnvTopic env = None ->
  bus.filter ext deviceID inner msg = Panics.
Proof. intros Hp Ht. unfold bus.filter. now rewrite Hp, Ht. Qed.

End CommandFilter.

(** ** The reference codec reads back what it writes *)

Section ReferenceCodec.

Import Reference.

Lemma parseChars_printChars (s rest : string) :
  parseChars (printChars s rest) = Some (s, rest).
Proof.
  induction s as [|c s IH]; simpl.
  - reflexivity.
  - destruct (Ascii.eqb c dquote) eqn:Eq; simpl.
    + now rewrite IH.
    + destruct (Ascii.eqb c backslash) eqn:Eb; simpl.
      * now rewrite IH.
      * now rewrite Eq, Eb, IH.
Qed.

Lemma spanNumber_append (digits rest : string) :
  numeric digits = true -> endsNumber rest ->
  spanNumber (digits ++ rest) = (digits, rest).
Proof.
  intros Hnum Hrest. induction digits as [|c digits IH]; simpl in *.
  - destruct rest as [|c r]; simpl in *; [reflexivity | now rewrite Hrest].
  - apply andb_true_iff in Hnum as [Hc Hd]. now rewrite Hc, (IH Hd).
Qed.

Lemma numeric_uint (d : Decimal.uint) : numeric (NilEmpty.string_of_uint d) = true.
Proof. induction d; simpl; auto. Qed.

Lemma numeric_int (n : Z) : numeric (NilZero.string_of_int (Z.to_int n)) = true.
Proof.
  assert (Hu : forall d, numeric (NilZero.string_of_uint d) = true).
  { intros d. destruct d; try reflexivity; apply (numeric_uint (_ d)). }
  destruct (Z.to_int n); simpl; [apply Hu | apply Hu].
Qed.

Lemma int_of_string_to_int (n : Z) :
  NilZero.int_of_string (NilZero.string_of_int (Z.to_int n)) = Some (Z.to_int n).
Proof.
  apply NilZero.isi; destruct n; simpl; try discriminate;
    intros H; injection H as H; exact (DecimalPos.Unsigned.to_uint_nonnil _ H).
Qed.

Lemma number_starts (n : Z) :
  exists c r, NilZero.string_of_int (Z.to_int n) = String c r /\ isNumChar c = true.
Proof.
  pose proof (numeric_int n) as Hnum. pose proof (int_of_string_to_int n) as Hparse.
  destruct (NilZero.string_of_int (Z.to_int n)) as [|c r]; [discriminate|].
  simpl in Hnum. apply andb_true_iff in Hnum as [Hc _]. eauto.
Qed.

Lemma parseWord_append (word : string) (v : json) (rest : string) :
  parseWord word v (word ++ rest) = Some (v, rest).
Proof.
  unfold parseWord. rewrite prefix_append, length_append.
  replace (String.length word + String.length rest - String.length word)%nat
    with (String.length rest) by lia.
  now rewrite substring_skip, substring_all.
Qed.

Lemma parseItems_closing (fuel : nat) (rest : string) :
  parseItems fuel (String "]" rest) = None.
Proof. destruct fuel as [|[|fuel]]; reflexivity. Qed.

Lemma parseFields_closing (fuel : nat) (rest : string) :
  parseFields fuel (String "}" rest) = None.
Proof. destruct fuel; reflexivity. Qed.

(** With fuel for its size, a printed document is read back and the
    text after it is left over. *)
Lemma parseValue_printTo (v : json) :
  forall fuel rest, (size v <= fuel)%nat -> endsNumber rest ->
                    parseValue fuel (printTo v rest) = Some (v, rest).
Proof.
  induction v as [| b | n | s | items IH | fields IH] using json_nested_ind;
    intros fuel rest Hfuel Hrest; (destruct fuel as [|fuel]; [simpl in Hfuel; lia|]).
  - change (printTo JNull rest) with (String "n" ("ull" ++ rest)).
    unfold parseValue. cbn [isNumChar Ascii.eqb Bool.eqb andb orb nat_of_ascii]. simpl.
    change (String "n" (String "u" (String "l" (String "l" rest)))) with ("null" ++ rest)%string.
    unfold parseLiteral. now rewrite parseWord_append.
  - destruct b.
    + change (printTo (JBool true) rest) with ("true" ++ rest)%string.
      simpl. change (String "t" (String "r" (String "u" (String "e" rest))))
        with ("true" ++ rest)%string.
      unfold parseLiteral. rewrite parseWord_append.
      destruct rest; reflexivity.
    + change (printTo (JBool false) rest) with ("false" ++ rest)%string.
      simpl. change (String "f" (String "a" (String "l" (String "s" (String "e" rest)))))
        with ("false" ++ rest)%string.
      unfold parseLiteral. rewrite parseWord_append.
      destruct rest; reflexivity.
  - change (printTo (JNum n) rest)
      with (NilZero.string_of_int (Z.to_int n) ++ rest)%string.
    destruct (number_starts n) as [c [r [Hs Hc]]].
    assert (Hgo : parseValue (S fuel) (NilZero.string_of_int (Z.to_int n) ++ rest) =
                  parseNumber (NilZero.string_of_int (Z.to_int n) ++ rest)).
    { rewrite Hs. simpl. now rewrite Hc. }
    rewrite Hgo. unfold parseNumber.
    rewrite (spanNumber_append _ _ (numeric_int n) Hrest), int_of_string_to_int.
    now rewrite DecimalZ.of_to.
  - change (printTo (JStr s) rest) with (String dquote (printChars s rest)).
    simpl. now rewrite parseChars_printChars.
  - change (printTo (JArr items) rest) with (String "[" (printItems rest items)).
    change (size (JArr items)) with (S (sizeItems items)) in Hfuel.
    assert (Hitems : items <> [] -> forall fuel, (sizeItems items <= fuel)%nat ->
                     parseItems fuel (printItems rest items) = Some (items, rest)).
    { clear Hfuel fuel. induction IH as [|x r Hx _ IHr]; intros Hne fuel Hfuel;
        [contradiction|].
      change (sizeItems (x :: r)) with (S (size x + sizeItems r)) in Hfuel.
      destruct fuel as [|fuel]; [lia|].
      change (printItems rest (x :: r))
        with (printTo x match r with
                        | [] => String "]" rest
                        | _ :: _ => String "," (printItems rest r)
                        end).
      simpl parseItems. destruct r as [|y r].
      - rewrite (Hx fuel (String "]" rest) ltac:(lia) eq_refl). reflexivity.
      - rewrite (Hx fuel (String "," (printItems rest (y :: r))) ltac:(lia) eq_refl).
        specialize (IHr ltac:(discriminate) fuel ltac:(lia)).
        remember (printItems rest (y :: r)) as tail. simpl. now rewrite IHr. }
    simpl parseValue. destruct items as [|x r].
    + change (printItems rest []) with (String "]" rest).
      rewrite parseItems_closing. reflexivity.
    + rewrite (Hitems ltac:(discriminate) fuel ltac:(lia)). reflexivity.
  - change (printTo (JObj fields) rest) with (String "{" (printFields rest fields)).
    change (size (JObj fields)) with (S (sizeFields fields)) in Hfuel.
    assert (Hfields : fields <> [] -> forall fuel, (sizeFields fields <= fuel)%nat ->
                      parseFields fuel (printFields rest fields) = Some (fields, rest)).
    { clear Hfuel fuel. induction IH as [|[k x] r Hx _ IHr]; intros Hne fuel Hfuel;
        [contradiction|].
      change (sizeFields ((k, x) :: r)) with (S (size x + sizeFields r)) in Hfuel.
      destruct fuel as [|fuel]; [lia|]. simpl in Hx.
      change (printFields rest ((k, x) :: r))
        with (String dquote
                (printChars k
                   (String ":"
                      (printTo x match r with
                                 | [] => String "}" rest
                                 | _ :: _ => String "," (printFields rest r)
                                 end)))).
      simpl parseFields. rewrite parseChars_printChars. simpl. destruct r as [|y r].
      - rewrite (Hx fuel (String "}" rest) ltac:(lia) eq_refl). reflexivity.
      - rewrite (Hx fuel (String "," (printFields rest (y :: r))) ltac:(lia) eq_refl).
        specialize (IHr ltac:(discriminate) fuel ltac:(lia)).
        remember (printFields rest (y :: r)) as tail. simpl. now rewrite IHr. }
    simpl parseValue. destruct fields as [|kx r].
    + change (printFields rest []) with (String "}" rest).
      rewrite parseFields_closing. reflexivity.
    + rewrite (Hfields ltac:(discriminate) fuel ltac:(lia)). reflexivity.
Qed.

Lemma printChars_length (s rest : string) :
  (S (String.length rest) <= String.length (printChars s rest))%nat.
Proof.
  induction s as [|c s IH]; simpl; [lia|].
  destruct (Ascii.eqb c dquote || Ascii.eqb c backslash); simpl; lia.
Qed.

(** The text of a document is at least as long as the fuel it needs. *)
Lemma size_le_length (v : json) :
  forall rest, (size v + String.length rest <= String.length (printTo v rest))%nat.
Proof.
  induction v as [| b | n | s | items IH | fields IH] using json_nested_ind; intros rest.
  - simpl. lia.
  - destruct b; simpl; lia.
  - change (printTo (JNum n) rest)
      with (NilZero.string_of_int (Z.to_int n) ++ rest)%string.
    destruct (number_starts n) as [c [r [-> _]]].
    rewrite length_append. simpl. lia.
  - change (printTo (JStr s) rest) with (String dquote (printChars s rest)).
    pose proof (printChars_length s rest). simpl. lia.
  - change (printTo (JArr items) rest) with (String "[" (printItems rest items)).
    change (size (JArr items)) with (S (sizeItems items)).
    enough (H : (sizeItems items + String.length rest <= String.length (printItems rest items))%nat)
      by (simpl; lia).
    induction IH as [|x r Hx _ IHr]; [simpl; lia|].
    change (sizeItems (x :: r)) with (S (size x + sizeItems r)).
    change (printItems rest (x :: r))
      with (printTo x match r with
                      | [] => String "]" rest
                      | _ :: _ => String "," (printItems rest r)
                      end).
    destruct r as [|y r].
    + specialize (Hx (String "]" rest)). simpl in *. lia.
    + specialize (Hx (String "," (printItems rest (y :: r)))).
      remember (printItems rest (y :: r)) as tail.
      remember (sizeItems (y :: r)) as n. simpl in Hx. lia.
  - change (printTo (JObj fields) rest) with (String "{" (printFields rest fields)).
    change (size (JObj fields)) with (S (sizeFields fields)).
    enough (H : (sizeFields fields + String.length rest
                 <= String.length (printFields rest fields))%nat)
      by (simpl; lia).
    induction IH as [|[k x] r Hx _ IHr]; [simpl; lia|].
    change (sizeFields ((k, x) :: r)) with (S (size x + sizeFields r)).
    change (printFields rest ((k, x) :: r))
      with (String dquote
              (printChars k
                 (String ":"
                    (printTo x match r with
                               | [] => String "}" rest
                               | _ :: _ => String "," (printFields rest r)
                               end)))).
    simpl in Hx.
    destruct r as [|y r].
    + specialize (Hx (String "}" rest)).
      pose proof (printChars_length k (String ":" (printTo x (String "}" rest)))) as Hk.
      simpl in *. lia.
    + specialize (Hx (String "," (printFields rest (y :: r)))).
      pose proof (printChars_length k
                    (String ":" (printTo x (String "," (printFields rest (y :: r)))))) as Hk.
      remember (printFields rest (y :: r)) as tail.
      remember (sizeFields (y :: r)) as n. simpl in Hx, Hk |- *. lia.
Qed.

Lemma parse_print (v : json) : parse (print v) = Some v.
Proof.
  unfold parse, print.
  rewrite (parseValue_printTo v (String.length (printTo v "")) "");
    [reflexivity | | exact I].
  pose proof (size_le_length v "") as H. simpl in H. lia.
Qed.

Lemma sameJson_refl (v : json) : Spec.sameJson v v.
Proof.
  induction v as [| b | n | s | items IH | fields IH] using json_nested_ind;
    try constructor.
  - induction IH; constructor; auto.
  - apply Spec.same_obj with (f2' := fields); [reflexivity|].
    induction IH; constructor; auto.
Qed.

End ReferenceCodec.

(** ** The shape of an update payload *)

Section UpdatePayload.

Variable ext : Extern.
Variable run : Run.
Variable h : passthrough.deviceHandler.

(** What is assumed of [encoding/json]: a decoded document is always
    encoded, and what was encoded decodes to the same JSON value. *)
Hypothesis marshal_total : forall v, json_Marshal ext v <> None.
Hypothesis unmarshal_marshal :
  forall v bytes, json_Marshal ext v = Some bytes ->
                  exists v', json_Unmarshal ext bytes = Some v' /\ Spec.sameJson v v'.

Lemma sameJson_singleton (k : string) (x v' : json) :
  Spec.sameJson (JObj [(k, x)]) v' ->
  exists x', v' = JObj [(k, x')] /\ Spec.sameJson x x'.
Proof.
  intros H. inversion H as [| | | | |f1 f2 f2' Hperm Hall]; subst.
  inversion Hall as [|a b l l' [Hk Hx] Hrest]; subst. inversion Hrest; subst.
  apply Permutation_sym, Permutation_length_1_inv in Hperm. subst f2.
  destruct b as [k' x']. simpl in Hk, Hx. subst k'. eauto.
Qed.

Lemma delete_topic_not_update (pre : string) :
  Go.HasSuffix (pre ++ "/" ++ "delete") "/update" = false.
Proof.
  destruct (Go.HasSuffix (pre ++ "/" ++ "delete") "/update") eqn:E; [|reflexivity].
  apply HasSuffix_inv in E as [p E].
  destruct (append_inv_tail_length pre p "/delete" "/update" eq_refl E) as [_ ?].
  discriminate.
Qed.

(** C2. The payload of every message emitted on an [/update] topic for a
    twin shadow envelope deserializes to an object whose only key is
    [state], whose value is an object whose only key is [reported]. *)
Theorem update_payload_is_state_reported (msg : Message) (env : Envelope)
    (msgs : list Message) (err : option error) :
  Envelope_Unmarshal ext (msgPayload msg) = Some env ->
  passthrough.isShadowMessage h env = Returns true ->
  passthrough.HandleMessage ext run h msg = Returns (msgs, err) ->
  Forall (fun m => forall topic,
    msgTopic m = Some topic -> Go.HasSuffix topic "/update" = true ->
    Spec.stateReportedOnly ext (msgPayload m)) msgs.
Proof.
  intros Hp Hs Hh.
  destruct (HandleMessage_shadow ext h run msg env Hp Hs) as [msgs' [Hm Hh']].
  rewrite Hh' in Hh. injection Hh as <- _.
  destruct (isShadowMessage_inv h env Hs) as [t [Ht [Hid _]]].
  eapply List.Forall_impl; [|exact (toShadowMessages_elements ext h run env msgs' true Hm)].
  intros m [F [value Hmsg]] topic Htopic Hupdate.
  destruct (toShadowMessage_spec ext h env t F value Ht Hid) as [scope [_ Hspec]].
  rewrite Hspec in Hmsg. injection Hmsg as <-.
  destruct (String.eqb (Action t) "delete" && passthrough.isEntireShadow value);
    simpl in Htopic; injection Htopic as <-.
  - destruct (templateTopic_target_last h scope "delete") as [pre Hpre].
    rewrite Hpre, delete_topic_not_update in Hupdate. discriminate.
  - simpl. unfold Spec.updatePayload.
    destruct (json_Marshal ext (JObj [("state", JObj [("reported", value)])]))
      as [bytes|] eqn:Ebytes; [|now destruct (marshal_total _ Ebytes)].
    destruct (unmarshal_marshal _ _ Ebytes) as [doc [Hdoc Hsame]].
    apply sameJson_singleton in Hsame as [state [-> Hstate]].
    apply sameJson_singleton in Hstate as [reported [-> _]].
    exists (JObj [("state", JObj [("reported", reported)])]),
      [("state", JObj [("reported", reported)])], (JObj [("reported", reported)]).
    repeat split; assumption || reflexivity.
Qed.

End UpdatePayload.

(** * The scenarios, run *)

Section Scenarios.

Import Scenario.

Lemma reference_marshal_total (v : json) : json_Marshal ext v <> None.
Proof. discriminate. Qed.

Lemma reference_unmarshal_marshal (v : json) (bytes : string) :
  json_Marshal ext v = Some bytes ->
  exists v', json_Unmarshal ext bytes = Some v' /\ Spec.sameJson v v'.
Proof.
  intros H. injection H as <-. exists v. split; [apply parse_print | apply sameJson_refl].
Qed.

(** The test suite, on the model. *)

Example TestHandleChildFeatureEvent :
  passthrough.HandleMessage ext inOrder handler (local modifyChildProperty) =
    Returns ([{| msgTopic := Some "$aws/things/test:device/shadow/name/edge:containers:test/update";
                 msgPayload := Reference.print
                                 (JObj [("state", JObj [("reported", JObj [("status", JNum 200)])])]) |}],
             None).
Proof. reflexivity. Qed.

Example TestPayloadFilter :
  passthrough.HandleMessage ext inOrder handlerReadmeFilters (local modifyChildProperties) =
    Returns ([{| msgTopic := Some "$aws/things/test:device/shadow/name/edge:containers:test/update";
                 msgPayload := Reference.print
                                 (JObj [("state",
                                         JObj [("reported",
                                                JObj [("code", JArr [JObj [("keep", JNum 201)]]);
                                                      ("status", JNum 200)])])]) |}],
             None).
Proof. reflexivity. Qed.

Example TestDeleteEntireElements :
  passthrough.HandleMessage ext inOrder handler (local (deleteCommand "device" "/attributes")) =
    Returns ([{| msgTopic := Some "$aws/things/test:device/shadow/delete"; msgPayload := "" |}],
             None) /\
  passthrough.HandleMessage ext inOrder handler
    (local (deleteCommand "device:edge:containers" "/features/feature-1")) =
    Returns ([{| msgTopic := Some "$aws/things/test:device/shadow/name/edge:containers:feature-1/delete";
                 msgPayload := "" |}], None).
Proof. split; reflexivity. Qed.

Example TestDeleteOfInnerElements :
  passthrough.HandleMessage ext inOrder handler
    (local (deleteCommand "device" "/features/feature-1/definition")) =
    Returns ([{| msgTopic := Some "$aws/things/test:device/shadow/name/feature-1/update";
                 msgPayload := Reference.print
                                 (JObj [("state", JObj [("reported", JObj [("definition", JNull)])])]) |}],
             None).
Proof. reflexivity. Qed.

Example TestFilter :
  bus.filter ext "test:device" PassthroughHandler (local installCommand) =
    Returns ([local installCommand], None).
Proof. reflexivity. Qed.

Example TestFilterNotAccepted :
  bus.filter ext "test:device" PassthroughHandler (local foreignCommand) = Returns ([], None).
Proof. reflexivity. Qed.

(** C1. The envelope of TestDeleteObsoleteRootFeatureProperty, whose
    shadow [test] is mirrored with the properties [status] and [obsolete]:
    the handler reports the incoming properties as they are, where the
    merge against the mirror has [obsolete] with value [null]. *)
Theorem obsolete_property_is_not_tombstoned :
  passthrough.HandleMessage ext inOrder handler (local modifyFeature) =
    Returns ([{| msgTopic := Some "$aws/things/test:device/shadow/name/test/update";
                 msgPayload := Spec.updatePayload ext (JObj [("status", JNum 200)]) |}],
             None) /\
  Spec.reported (Some mirroredFeature) (JObj [("status", JNum 200)]) =
    JObj [("status", JNum 200); ("obsolete", JNull)] /\
  Spec.updatePayload ext (JObj [("status", JNum 200)]) <>
    Spec.updatePayload ext (Spec.reported (Some mirroredFeature) (JObj [("status", JNum 200)])).
Proof. split; [|split]; [reflexivity | reflexivity | vm_compute; discriminate]. Qed.

(** The update emitted for the root feature envelope, read back by the
    reference decoder. *)
Lemma update_payload_is_state_reported_witness :
  Forall (fun m => forall topic,
    msgTopic m = Some topic -> Go.HasSuffix topic "/update" = true ->
    Spec.stateReportedOnly ext (msgPayload m))
    [{| msgTopic := Some "$aws/things/test:device/shadow/name/test/update";
        msgPayload := Spec.updatePayload ext (JObj [("status", JNum 200)]) |}].
Proof.
  apply (update_payload_is_state_reported ext inOrder handler
           reference_marshal_total reference_unmarshal_marshal
           (local modifyFeature)
           {| EnvTopic := Some {| Namespace := "test"; EntityName := "device";
                                  Group := "things"; Channel := "twin";
                                  Criterion := "commands"; Action := "modify" |};
              Path := "/features/test";
              Value := JObj [("properties", JObj [("status", JNum 200)])];
              Status := 0 |}
           _ None); reflexivity.
Defined.


(** TestUpdateChildShadow and TestDeleteChildShadow. *)
Lemma mirror_follows_accepted_notifications_witness :
  ((Go.Contains childUpdateAccepted "/name/" = true /\
    nth_error (Go.Split childUpdateAccepted) 5 = Some "test:device:child") \/
   (Go.Contains childUpdateAccepted "/name/" = false /\
    "test:device:child" = state.deviceID mirror)) /\
  (exists shadows1,
      state.HandleMessage ext mirror ∅ (accepted childUpdateAccepted acceptedState) =
        Returns (shadows1, ([], None)) /\
      state.GetCurrentShadowState shadows1 "test:device:child" = reportedValue) /\
  (exists shadows2,
      state.HandleMessage ext mirror {[ "test:device:child" := reportedValue ]}
        (accepted childDeleteAccepted acceptedState) = Returns (shadows2, ([], None)) /\
      state.GetCurrentShadowState shadows2 "test:device:child" = JNull).
Proof.
  apply (mirror_follows_accepted_notifications ext mirror ∅
           {[ "test:device:child" := reportedValue ]}
           childUpdateAccepted childDeleteAccepted
           (Reference.print acceptedState) (Reference.print acceptedState)
           "test:device:child" acceptedState reportedValue);
    try reflexivity.
  exists [("state", JObj [("reported", reportedValue)])], [("reported", reportedValue)].
  repeat split; try reflexivity. discriminate.
Defined.

(** TestErrorWhenUpdatingAndPayloadNotMap and
    TestNoErrorWhenDeletingAndPayloadNotMap. *)
Lemma malformed_update_rejected_delete_accepted_witness :
  (exists e,
      state.HandleMessage ext mirror {[ "test:device" := reportedValue ]}
        {| msgTopic := Some (Spec.acceptedTopic (state.deviceID mirror) None "/update/accepted");
           msgPayload := "payload" |} =
        Returns ({[ "test:device" := reportedValue ]}, ([], Some e))) /\
  (exists id, forall (ext' : Extern) (payload' : string),
      state.HandleMessage ext' mirror {[ "test:device" := reportedValue ]}
        {| msgTopic := Some (Spec.acceptedTopic (state.deviceID mirror) None "/delete/accepted");
           msgPayload := payload' |} =
        Returns (delete id ({[ "test:device" := reportedValue ]} : gmap string json),
                 ([], None))).
Proof.
  apply (malformed_update_rejected_delete_accepted ext mirror
           {[ "test:device" := reportedValue ]} None "payload").
  left. reflexivity.
Defined.

(** C6, as stated, fails: the topic of the live message matches the
    topic filter [.*], and the handler still emits a message, the one of
    the default handler. *)
Lemma topic_filter_keeps_live_message :
  match Envelope_Unmarshal ext (msgPayload (local liveMessage)) with
  | Some env =>
      match EnvTopic env, passthrough.topicFilter handlerTopicFilter with
      | Some t, Some re => MatchString re (Topic_String ext t)
      | _, _ => false
      end
  | None => false
  end = true /\
  passthrough.HandleMessage ext inOrder handlerTopicFilter (local liveMessage) =
    Returns ([{| msgTopic := Some "event/test-tenant-id/test:device";
                 msgPayload := Reference.print liveMessage |}], None).
Proof. split; reflexivity. Qed.

(** TestTopicFilter, with the filter [.*]. *)
Lemma topic_filter_drops_shadow_envelope_witness :
  passthrough.HandleMessage ext inOrder handlerTopicFilter (local modifyFeature) =
    Returns ([], None).
Proof.
  apply (topic_filter_drops_shadow_envelope ext inOrder handlerTopicFilter
           (local modifyFeature)
           {| EnvTopic := Some {| Namespace := "test"; EntityName := "device";
                                  Group := "things"; Channel := "twin";
                                  Criterion := "commands"; Action := "modify" |};
              Path := "/features/test";
              Value := JObj [("properties", JObj [("status", JNum 200)])];
              Status := 0 |}
           {| Namespace := "test"; EntityName := "device";
              Group := "things"; Channel := "twin";
              Criterion := "commands"; Action := "modify" |}
           anything); reflexivity.
Defined.

(** C7, as stated, fails: the reconstructed value [{"attributes":{}}] has
    no leaf, so every leaf of it is matched by a configured filter, none
    being configured; the handler emits an update. *)
Lemma leafless_value_is_emitted :
  match Envelope_Unmarshal ext (msgPayload (local modifyNoAttributes)) with
  | Some env =>
      Forall (Spec.excluded (passthrough.payloadFilters handler))
        (Spec.leafPaths "" (passthrough.integrate (Go.Split (Path env)) (Value env)))
  | None => False
  end /\
  passthrough.HandleMessage ext inOrder handler (local modifyNoAttributes) =
    Returns ([{| msgTopic := Some "$aws/things/test:device/shadow/update";
                 msgPayload := Spec.updatePayload ext (JObj []) |}], None).
Proof. split; [constructor | reflexivity]. Qed.

(** TestPayloadFilterEntireValue. *)
Lemma payload_filter_drops_excluded_value_witness :
  passthrough.HandleMessage ext inOrder handlerPayloadFilter (local modifyFeature) =
    Returns ([], None) /\
  Spec.noEmptyContainer
    (passthrough.filterPayload handlerPayloadFilter
       (passthrough.integrate (Go.Split "/features/test")
          (JObj [("properties", JObj [("status", JNum 200)])]))).
Proof.
  destruct (payload_filter_drops_excluded_value ext handlerPayloadFilter inOrder
              (local modifyFeature)
              {| EnvTopic := Some {| Namespace := "test"; EntityName := "device";
                                     Group := "things"; Channel := "twin";
                                     Criterion := "commands"; Action := "modify" |};
                 Path := "/features/test";
                 Value := JObj [("properties", JObj [("status", JNum 200)])];
                 Status := 0 |})
    as [Hdrop Hclean]; [reflexivity | reflexivity | discriminate |].
  split; [|exact Hclean]. apply Hdrop.
  repeat constructor. exists anything. split; [left; reflexivity | reflexivity].
Defined.

(** C8. The payload [{}] is decoded into an envelope without a topic, and
    the filter panics on it, where an empty list of messages and a nil
    error are expected. *)
Theorem filter_panics_on_envelope_without_topic :
  Envelope_Unmarshal ext (msgPayload (local noTopic)) =
    Some {| EnvTopic := None; Path := ""; Value := JNull; Status := 0 |} /\
  bus.filter ext "test:device" PassthroughHandler (local noTopic) = Panics.
Proof. split; reflexivity. Qed.

(** C9, as stated, fails in two ways.  Two runs on the envelope with two
    features, the second one visiting the features map in the opposite
    order, emit the two messages in different orders.  And two runs on the
    live message of TestEvents, which is delegated, emit at different times
    payloads with different [x-timestamp] headers. *)
Lemma runs_differ_by_order_and_by_time :
  (passthrough.HandleMessage ext inOrder handler (local modifyTwoFeatures) =
     Returns ([{| msgTopic := Some "$aws/things/test:device/shadow/name/first/update";
                  msgPayload := Spec.updatePayload ext (JObj [("x", JNum 1)]) |};
               {| msgTopic := Some "$aws/things/test:device/shadow/name/second/update";
                  msgPayload := Spec.updatePayload ext (JObj [("y", JNum 2)]) |}], None) /\
   passthrough.HandleMessage ext reversed handler (local modifyTwoFeatures) =
     Returns ([{| msgTopic := Some "$aws/things/test:device/shadow/name/second/update";
                  msgPayload := Spec.updatePayload ext (JObj [("y", JNum 2)]) |};
               {| msgTopic := Some "$aws/things/test:device/shadow/name/first/update";
                  msgPayload := Spec.updatePayload ext (JObj [("x", JNum 1)]) |}], None) /\
   passthrough.HandleMessage ext inOrder handler (local modifyTwoFeatures) <>
   passthrough.HandleMessage ext reversed handler (local modifyTwoFeatures)) /\
  (passthrough.HandleMessage ext inOrder handlerStamping (local liveMessage) =
     Returns (stamp 0 (local liveMessage)) /\
   passthrough.HandleMessage ext later handlerStamping (local liveMessage) =
     Returns (stamp 1 (local liveMessage)) /\
   List.map msgPayload (fst (stamp 0 (local liveMessage))) <>
   List.map msgPayload (fst (stamp 1 (local liveMessage)))).
Proof.
  split; (split; [|split]); try reflexivity; vm_compute; discriminate.
Qed.

(** Two runs on the envelope with attributes and two features, the later
    one visiting the features in the opposite order; and two runs on the
    live message of TestEvents, which is delegated. *)
Lemma repeated_run_same_messages_witness :
  (exists first perFeature,
      (forall entry, (length (perFeature entry) <= 1)%nat) /\
      [{| msgTopic := Some "$aws/things/test:device/shadow/update";
          msgPayload := Spec.updatePayload ext (JObj [("location", JNum 44)]) |};
       {| msgTopic := Some "$aws/things/test:device/shadow/name/first/update";
          msgPayload := Spec.updatePayload ext (JObj [("x", JNum 1)]) |};
       {| msgTopic := Some "$aws/things/test:device/shadow/name/second/update";
          msgPayload := Spec.updatePayload ext (JObj [("y", JNum 2)]) |}] =
        first ++ flat_map perFeature
                   (rangeOrder inOrder (Spec.featuresOf ext handler (local modifyThing))) /\
      [{| msgTopic := Some "$aws/things/test:device/shadow/update";
          msgPayload := Spec.updatePayload ext (JObj [("location", JNum 44)]) |};
       {| msgTopic := Some "$aws/things/test:device/shadow/name/second/update";
          msgPayload := Spec.updatePayload ext (JObj [("y", JNum 2)]) |};
       {| msgTopic := Some "$aws/things/test:device/shadow/name/first/update";
          msgPayload := Spec.updatePayload ext (JObj [("x", JNum 1)]) |}] =
        first ++ flat_map perFeature
                   (rangeOrder later (Spec.featuresOf ext handler (local modifyThing))) /\
      (rangeOrder inOrder (Spec.featuresOf ext handler (local modifyThing)) =
       rangeOrder later (Spec.featuresOf ext handler (local modifyThing)) ->
       [{| msgTopic := Some "$aws/things/test:device/shadow/update";
           msgPayload := Spec.updatePayload ext (JObj [("location", JNum 44)]) |};
        {| msgTopic := Some "$aws/things/test:device/shadow/name/first/update";
           msgPayload := Spec.updatePayload ext (JObj [("x", JNum 1)]) |};
        {| msgTopic := Some "$aws/things/test:device/shadow/name/second/update";
           msgPayload := Spec.updatePayload ext (JObj [("y", JNum 2)]) |}] =
       [{| msgTopic := Some "$aws/things/test:device/shadow/update";
           msgPayload := Spec.updatePayload ext (JObj [("location", JNum 44)]) |};
        {| msgTopic := Some "$aws/things/test:device/shadow/name/second/update";
           msgPayload := Spec.updatePayload ext (JObj [("y", JNum 2)]) |};
        {| msgTopic := Some "$aws/things/test:device/shadow/name/first/update";
           msgPayload := Spec.updatePayload ext (JObj [("x", JNum 1)]) |}]) /\
      (Permutation (rangeOrder inOrder (Spec.featuresOf ext handler (local modifyThing)))
                   (rangeOrder later (Spec.featuresOf ext handler (local modifyThing))) ->
       Permutation
         [{| msgTopic := Some "$aws/things/test:device/shadow/update";
             msgPayload := Spec.updatePayload ext (JObj [("location", JNum 44)]) |};
          {| msgTopic := Some "$aws/things/test:device/shadow/name/first/update";
             msgPayload := Spec.updatePayload ext (JObj [("x", JNum 1)]) |};
          {| msgTopic := Some "$aws/things/test:device/shadow/name/second/update";
             msgPayload := Spec.updatePayload ext (JObj [("y", JNum 2)]) |}]
         [{| msgTopic := Some "$aws/things/test:device/shadow/update";
             msgPayload := Spec.updatePayload ext (JObj [("location", JNum 44)]) |};
          {| msgTopic := Some "$aws/things/test:device/shadow/name/second/update";
             msgPayload := Spec.updatePayload ext (JObj [("y", JNum 2)]) |};
          {| msgTopic := Some "$aws/things/test:device/shadow/name/first/update";
             msgPayload := Spec.updatePayload ext (JObj [("x", JNum 1)]) |}])) /\
  (exists first perFeature,
      (forall entry, (length (perFeature entry) <= 1)%nat) /\
      fst (forward 0 (local liveMessage)) =
        first ++ flat_map perFeature
                   (rangeOrder inOrder (Spec.featuresOf ext handler (local liveMessage))) /\
      fst (forward 1 (local liveMessage)) =
        first ++ flat_map perFeature
                   (rangeOrder later (Spec.featuresOf ext handler (local liveMessage))) /\
      (rangeOrder inOrder (Spec.featuresOf ext handler (local liveMessage)) =
       rangeOrder later (Spec.featuresOf ext handler (local liveMessage)) ->
       fst (forward 0 (local liveMessage)) = fst (forward 1 (local liveMessage))) /\
      (Permutation (rangeOrder inOrder (Spec.featuresOf ext handler (local liveMessage)))
                   (rangeOrder later (Spec.featuresOf ext handler (local liveMessage))) ->
       Permutation (fst (forward 0 (local liveMessage)))
                   (fst (forward 1 (local liveMessage))))).
Proof.
  split.
  - apply (repeated_run_same_messages ext handler inOrder later (local modifyThing)
             _ _ None None); [reflexivity | reflexivity | intros _; reflexivity].
  - apply (repeated_run_same_messages ext handler inOrder later (local liveMessage)
             _ _ None None); [reflexivity | reflexivity | intros _; reflexivity].
Defined.

(** With an encoder that fails, the update is still emitted: its payload
    is empty and the handler reports no error. *)
Example failing_encoder_still_emits :
  passthrough.HandleMessage failingEncoder inOrder handler (local modifyFeature) =
    Returns ([{| msgTopic := Some "$aws/things/test:device/shadow/name/test/update";
                 msgPayload := "" |}], None).
Proof. reflexivity. Qed.

(** The envelope with attributes and two features, with an encoder that
    fails on every document: three messages with an empty payload. *)
Lemma shadow_branch_reports_no_error_witness :
  exists t msgs,
    EnvTopic modifyThingEnvelope = Some t /\
    passthrough.HandleMessage failingEncoder inOrder handler (local modifyThing) =
      Returns (msgs, None) /\
    Forall2 (fun scoped m =>
               Spec.addressed "test:device" t (fst scoped) m /\
               (json_Marshal failingEncoder
                  (passthrough.integrate
                     [passthrough.valueStateTag; passthrough.valueReportedTag] (snd scoped))
                = None -> msgPayload m = ""%string))
      [(""%string, JObj [("location", JNum 44)]);
       ("first"%string, JObj [("x", JNum 1)]);
       ("second"%string, JObj [("y", JNum 2)])] msgs.
Proof.
  apply (shadow_branch_reports_no_error failingEncoder inOrder handler (local modifyThing)
           modifyThingEnvelope); reflexivity.
Defined.

(** What the handler answers in that case. *)
Example failing_encoder_emits_every_message :
  passthrough.HandleMessage failingEncoder inOrder handler (local modifyThing) =
    Returns ([{| msgTopic := Some "$aws/things/test:device/shadow/update"; msgPayload := "" |};
              {| msgTopic := Some "$aws/things/test:device/shadow/name/first/update";
                 msgPayload := "" |};
              {| msgTopic := Some "$aws/things/test:device/shadow/name/second/update";
                 msgPayload := "" |}], None).
Proof. reflexivity. Qed.

End Scenarios.

(** * Further properties of the handlers *)

(** ** Go maps *)

Section GoMaps.

Lemma mapGet_mapSet_same (key : string) (v : json) (m : list (string * json)) :
  Go.mapGet key (Go.mapSet key v m) = Some v.
Proof.
  induction m as [|[k w] m IH]; simpl.
  - now rewrite String.eqb_refl.
  - destruct (String.eqb k key) eqn:E; simpl; rewrite E; [reflexivity | exact IH].
Qed.

Lemma mapGet_mapSet_other (key key' : string) (v : json) (m : list (string * json)) :
  key' <> key -> Go.mapGet key' (Go.mapSet key v m) = Go.mapGet key' m.
Proof.
  intros Hne. induction m as [|[k w] m IH]; simpl.
  - destruct (String.eqb_spec key key') as [->|_]; [contradiction | reflexivity].
  - destruct (String.eqb_spec k key) as [->|Hk]; simpl.
    + destruct (String.eqb_spec key key') as [->|_]; [contradiction | reflexivity].
    + now rewrite IH.
Qed.

Lemma mapSet_nonempty (key : string) (v : json) (m : list (string * json)) :
  Go.mapSet key v m <> [].
Proof. destruct m as [|[k w] m]; simpl; [|destruct (String.eqb k key)]; discriminate. Qed.

End GoMaps.

(** ** The reconstructed value *)

Section Reconstruction.

Lemma integrate_skips_empty (path : list string) (value : json) :
  passthrough.integrate path value =
  passthrough.integrate (List.filter View.nonEmpty path) value.
Proof.
  induction path as [|p path IH]; simpl; [reflexivity|].
  unfold View.nonEmpty at 1. destruct (0 <? String.length p)%nat eqn:E; simpl.
  - unfold View.nonEmpty in E. rewrite E, IH. reflexivity.
  - exact IH.
Qed.

(** X1. The value an envelope carries is found back in the reconstructed
    value by following the non-empty segments of its path; empty segments
    (the leading slash, doubled slashes) leave no trace. *)
Theorem integrate_descend (path : list string) (value : json) :
  View.descend (List.filter View.nonEmpty path) (passthrough.integrate path value) = Some value.
Proof.
  induction path as [|p path IH]; simpl; [reflexivity|].
  unfold View.nonEmpty at 1. destruct (0 <? String.length p)%nat eqn:E; simpl.
  - rewrite String.eqb_refl. exact IH.
  - exact IH.
Qed.

(** The reconstructed value is an object with the first non-empty segment
    as its only key. *)
Lemma integrate_first_segment (path : list string) (value : json) (s : string)
    (more : list string) :
  List.filter View.nonEmpty path = s :: more ->
  passthrough.integrate path value = JObj [(s, passthrough.integrate more value)].
Proof.
  intros Hseg. rewrite integrate_skips_empty, Hseg.
  assert (Hs : View.nonEmpty s = true).
  { assert (Hin : In s (List.filter View.nonEmpty path)) by (rewrite Hseg; left; reflexivity).
    apply filter_In in Hin as [_ H]. exact H. }
  simpl. unfold View.nonEmpty in Hs. rewrite Hs. reflexivity.
Qed.

End Reconstruction.

(** ** What payload filtering keeps *)

Section FilterKeeps.

Variable filters : list Regexp.

Lemma _filterPayload_object (path : string) (mData : list (string * json)) :
  passthrough._filterPayload filters path (JObj mData) =
  ((length (View.keptFields filters path mData) =? 0)%nat,
   JObj (View.keptFields filters path mData)).
Proof. reflexivity. Qed.

Lemma _filterPayload_array (path : string) (aData : list json) :
  passthrough._filterPayload filters path (JArr aData) =
  ((length (View.keptItems filters path 0 aData) =? 0)%nat,
   JArr (View.keptItems filters path 0 aData)).
Proof. reflexivity. Qed.

Lemma length_zero_iff_nil {A : Type} (l : list A) : (length l =? 0)%nat = true <-> l = [].
Proof. destruct l; simpl; split; intros H; try reflexivity; discriminate. Qed.

(** The walk keeps exactly the leaves whose synthesized path (with the
    index an element had in the incoming array) matches no filter, in
    their order; and the value is reported for removal exactly when no
    leaf is left. *)
Lemma _filterPayload_leaves (data : json) :
  forall path,
    (fst (passthrough._filterPayload filters path data) = true <->
     View.survivors filters path data = []) /\
    (fst (passthrough._filterPayload filters path data) = false ->
     View.leafValues (snd (passthrough._filterPayload filters path data)) =
     View.survivors filters path data).
Proof.
  induction data as [| b | n | s | items IH | fields IH] using json_nested_ind;
    intros path.
  1-4: unfold View.survivors, View.matched; simpl;
       destruct (existsb (fun filter => MatchString filter path) filters); simpl;
       (split; [split; intros H; (reflexivity || discriminate H)
               | intros H; (reflexivity || discriminate H)]).
  - rewrite _filterPayload_array. simpl fst. simpl snd.
    change (View.survivors filters path (JArr items))
      with (List.map snd (List.filter (fun pv => negb (View.matched filters (fst pv)))
                            (View.leavesOfItems path 0 items))).
    change (View.leafValues (JArr (View.keptItems filters path 0 items)))
      with (View.leafValuesOfItems (View.keptItems filters path 0 items)).
    rewrite length_zero_iff_nil.
    enough (H : forall index,
               (View.keptItems filters path index items = [] <->
                List.map snd (List.filter (fun pv => negb (View.matched filters (fst pv)))
                                (View.leavesOfItems path index items)) = []) /\
               View.leafValuesOfItems (View.keptItems filters path index items) =
               List.map snd (List.filter (fun pv => negb (View.matched filters (fst pv)))
                               (View.leavesOfItems path index items))).
    { destruct (H 0%nat) as [H1 H2]. split; [exact H1 | intros _; exact H2]. }
    induction IH as [|x r Hx _ IHr]; intros index; [split; reflexivity|].
    change (View.leavesOfItems path index (x :: r))
      with (View.leaves (path ++ "/" ++ Go.itoa index) x ++ View.leavesOfItems path (S index) r).
    change (View.keptItems filters path index (x :: r))
      with (let '(rem, val) :=
              passthrough._filterPayload filters (path ++ "/" ++ Go.itoa index) x in
            if rem then View.keptItems filters path (S index) r
            else val :: View.keptItems filters path (S index) r).
    rewrite List.filter_app, List.map_app.
    destruct (Hx (path ++ "/" ++ Go.itoa index)%string) as [Hrem Hkeep].
    destruct (IHr (S index)) as [Hnil Hvals].
    unfold View.survivors in Hrem, Hkeep.
    destruct (passthrough._filterPayload filters (path ++ "/" ++ Go.itoa index) x)
      as [[|] val]; cbn [fst snd] in Hrem, Hkeep.
    + rewrite (proj1 Hrem eq_refl). simpl. split; assumption.
    + change (View.leafValuesOfItems (val :: View.keptItems filters path (S index) r))
        with (View.leafValues val ++
              View.leafValuesOfItems (View.keptItems filters path (S index) r)).
      rewrite (Hkeep eq_refl), Hvals. split; [|reflexivity].
      split; [discriminate|]. intros Hn. apply app_eq_nil in Hn as [Hn _].
      apply Hrem in Hn. discriminate.
  - rewrite _filterPayload_object. simpl fst. simpl snd.
    change (View.survivors filters path (JObj fields))
      with (List.map snd (List.filter (fun pv => negb (View.matched filters (fst pv)))
                            (View.leavesOfFields path fields))).
    change (View.leafValues (JObj (View.keptFields filters path fields)))
      with (View.leafValuesOfFields (View.keptFields filters path fields)).
    rewrite length_zero_iff_nil.
    enough (H : (View.keptFields filters path fields = [] <->
                 List.map snd (List.filter (fun pv => negb (View.matched filters (fst pv)))
                                 (View.leavesOfFields path fields)) = []) /\
                View.leafValuesOfFields (View.keptFields filters path fields) =
                List.map snd (List.filter (fun pv => negb (View.matched filters (fst pv)))
                                (View.leavesOfFields path fields))).
    { destruct H as [H1 H2]. split; [exact H1 | intros _; exact H2]. }
    induction IH as [|[name x] r Hx _ IHr]; [simpl; split; [split; reflexivity | reflexivity]|].
    change (View.leavesOfFields path ((name, x) :: r))
      with (View.leaves (path ++ "/" ++ name) x ++ View.leavesOfFields path r).
    change (View.keptFields filters path ((name, x) :: r))
      with (let '(rem, val) := passthrough._filterPayload filters (path ++ "/" ++ name) x in
            if rem then View.keptFields filters path r
            else (name, val) :: View.keptFields filters path r).
    rewrite List.filter_app, List.map_app.
    simpl in Hx. destruct (Hx (path ++ "/" ++ name)%string) as [Hrem Hkeep].
    destruct IHr as [Hnil Hvals].
    unfold View.survivors in Hrem, Hkeep.
    destruct (passthrough._filterPayload filters (path ++ "/" ++ name) x)
      as [[|] val]; cbn [fst snd] in Hrem, Hkeep.
    + rewrite (proj1 Hrem eq_refl). simpl. split; assumption.
    + change (View.leafValuesOfFields ((name, val) :: View.keptFields filters path r))
        with (View.leafValues val ++ View.leafValuesOfFields (View.keptFields filters path r)).
      rewrite (Hkeep eq_refl), Hvals. split; [|reflexivity].
      split; [discriminate|]. intros Hn. apply app_eq_nil in Hn as [Hn _].
      apply Hrem in Hn. discriminate.
Qed.

Lemma _filterPayload_untouched (data : json) :
  forall path,
    Forall (fun pv => View.matched filters (fst pv) = false) (View.leaves path data) ->
    Spec.noEmptyContainer data ->
    passthrough._filterPayload filters path data = (false, data).
Proof.
  induction data as [| b | n | s | items IH | fields IH] using json_nested_ind;
    intros path Hl Hne.
  1-4: simpl in Hl; inversion Hl as [|? ? Hm _]; subst; simpl in Hm;
       unfold View.matched in Hm; simpl; rewrite Hm; reflexivity.
  - rewrite _filterPayload_array. simpl in Hne. destruct Hne as [Hnn Hall].
    change (View.leaves path (JArr items)) with (View.leavesOfItems path 0 items) in Hl.
    enough (H : forall index,
               Forall (fun pv => View.matched filters (fst pv) = false)
                 (View.leavesOfItems path index items) ->
               View.keptItems filters path index items = items).
    { rewrite (H 0%nat Hl). destruct items; [contradiction | reflexivity]. }
    clear Hl Hnn. induction IH as [|x r Hx _ IHr]; intros index Hl; [reflexivity|].
    simpl in Hall. destruct Hall as [Hxne Hrne].
    change (View.leavesOfItems path index (x :: r))
      with (View.leaves (path ++ "/" ++ Go.itoa index) x ++ View.leavesOfItems path (S index) r)
      in Hl.
    apply Forall_app in Hl as [Hl1 Hl2].
    change (View.keptItems filters path index (x :: r))
      with (let '(rem, val) :=
              passthrough._filterPayload filters (path ++ "/" ++ Go.itoa index) x in
            if rem then View.keptItems filters path (S index) r
            else val :: View.keptItems filters path (S index) r).
    rewrite (Hx _ Hl1 Hxne), (IHr Hrne (S index) Hl2). reflexivity.
  - rewrite _filterPayload_object. simpl in Hne. destruct Hne as [Hnn Hall].
    change (View.leaves path (JObj fields)) with (View.leavesOfFields path fields) in Hl.
    enough (H : View.keptFields filters path fields = fields).
    { rewrite H. destruct fields; [contradiction | reflexivity]. }
    clear Hnn. induction IH as [|[name x] r Hx _ IHr]; [reflexivity|].
    simpl in Hall, Hx. destruct Hall as [Hxne Hrne].
    change (View.leavesOfFields path ((name, x) :: r))
      with (View.leaves (path ++ "/" ++ name) x ++ View.leavesOfFields path r) in Hl.
    apply Forall_app in Hl as [Hl1 Hl2].
    change (View.keptFields filters path ((name, x) :: r))
      with (let '(rem, val) := passthrough._filterPayload filters (path ++ "/" ++ name) x in
            if rem then View.keptFields filters path r
            else (name, val) :: View.keptFields filters path r).
    rewrite (Hx _ Hl1 Hxne), (IHr Hl2 Hrne). reflexivity.
Qed.

End FilterKeeps.

(** X2. A value none of whose leaves is matched by a payload filter, and
    that holds no empty object or array, goes through [filterPayload]
    unchanged. *)
Theorem filterPayload_untouched (h : passthrough.deviceHandler) (data : json) :
  Forall (fun pv => View.matched (passthrough.payloadFilters h) (fst pv) = false)
    (View.leaves "" data) ->
  Spec.noEmptyContainer data ->
  passthrough.filterPayload h data = data.
Proof.
  intros Hl Hne. unfold passthrough.filterPayload.
  destruct (0 <? length (passthrough.payloadFilters h))%nat; [|reflexivity].
  now rewrite (_filterPayload_untouched (passthrough.payloadFilters h) data "" Hl Hne).
Qed.

(** X3. With a payload filter configured, [filterPayload] keeps exactly
    the leaves whose synthesized path (with the index an element had in
    the incoming array) matches no filter, in their order, and answers
    [nil] when no leaf is left. *)
Theorem filterPayload_keeps_unmatched_leaves (h : passthrough.deviceHandler) (data : json) :
  passthrough.payloadFilters h <> [] ->
  (View.survivors (passthrough.payloadFilters h) "" data = [] ->
   passthrough.filterPayload h data = JNull) /\
  (View.survivors (passthrough.payloadFilters h) "" data <> [] ->
   View.leafValues (passthrough.filterPayload h data) =
     View.survivors (passthrough.payloadFilters h) "" data).
Proof.
  intros Hne. unfold passthrough.filterPayload.
  destruct (passthrough.payloadFilters h) as [|f fs] eqn:Ef; [contradiction|].
  rewrite <- Ef. replace (0 <? length (passthrough.payloadFilters h))%nat with true
    by (rewrite Ef; reflexivity).
  destruct (_filterPayload_leaves (passthrough.payloadFilters h) data "") as [Hrem Hkept].
  destruct (passthrough._filterPayload (passthrough.payloadFilters h) "" data)
    as [[|] value]; simpl in Hrem, Hkept |- *; split.
  - reflexivity.
  - intros Hs. destruct Hs. now apply Hrem.
  - intros Hs. apply Hrem in Hs. discriminate Hs.
  - intros _. now apply Hkept.
Qed.

(** X4. As soon as a payload filter is configured, a value without any
    leaf (empty objects and arrays, nested or not) is removed, whether or
    not a filter matches anything. *)
Theorem filterPayload_drops_leafless (h : passthrough.deviceHandler) (data : json) :
  passthrough.payloadFilters h <> [] ->
  View.leaves "" data = [] ->
  passthrough.filterPayload h data = JNull.
Proof.
  intros Hne Hleaves. unfold passthrough.filterPayload.
  destruct (passthrough.payloadFilters h) as [|f fs] eqn:Ef; [contradiction|].
  rewrite <- Ef. replace (0 <? length (passthrough.payloadFilters h))%nat with true
    by (rewrite Ef; reflexivity).
  destruct (_filterPayload_leaves (passthrough.payloadFilters h) data "") as [Hrem _].
  unfold View.survivors in Hrem. rewrite Hleaves in Hrem.
  destruct (passthrough._filterPayload (passthrough.payloadFilters h) "" data) as [rem value].
  simpl in Hrem. rewrite (proj2 Hrem eq_refl). reflexivity.
Qed.

(** ** The messages of one feature *)

Section FeatureEntry.

Variable ext : Extern.
Variable h : passthrough.deviceHandler.

(** [getFeatureProperties] answers a map and whether it has an entry; the
    map is empty exactly when the feature has no property to use and no
    definition. *)
Lemma getFeatureProperties_empty_iff (feature : list (string * json)) :
  exists m,
    passthrough.getFeatureProperties (JObj feature) = (JObj m, negb (length m =? 0)%nat) /\
    (m = [] <-> View.propertiesOf feature = [] /\ Go.mapGet "definition" feature = None).
Proof.
  unfold passthrough.getFeatureProperties.
  change passthrough.valuePropertiesTag with "properties".
  change passthrough.valueDefinitionTag with "definition".
  change (match Go.mapGet "properties" feature with
          | Some (JObj properties) => properties
          | _ => []
          end) with (View.propertiesOf feature).
  destruct (Go.mapGet "definition" feature) as [d|] eqn:Ed.
  - exists (Go.mapSet "definition" d (View.propertiesOf feature)). split.
    + pose proof (mapSet_nonempty "definition" d (View.propertiesOf feature)) as Hne.
      destruct (Go.mapSet "definition" d (View.propertiesOf feature)); [contradiction | reflexivity].
    + split; [intros H; now apply mapSet_nonempty in H | intros [_ H]; discriminate].
  - exists (View.propertiesOf feature). split.
    + destruct (View.propertiesOf feature); reflexivity.
    + split; [intros H; auto | intros [H _]; exact H].
Qed.

(** X5. The value published for a feature that is an object holds the
    entries of its [properties] object, except that the key [definition]
    carries the [definition] member of the feature when it has one; the
    value is empty exactly when the feature has no property to use and no
    definition, and only a non-empty value is published. *)
Theorem getFeatureProperties_overlay (feature : list (string * json)) :
  exists m,
    passthrough.getFeatureProperties (JObj feature) = (JObj m, negb (length m =? 0)%nat) /\
    (forall key, key <> "definition" ->
                 Go.mapGet key m = Go.mapGet key (View.propertiesOf feature)) /\
    Go.mapGet "definition" m =
      match Go.mapGet "definition" feature with
      | Some d => Some d
      | None => Go.mapGet "definition" (View.propertiesOf feature)
      end /\
    (m = [] <-> View.propertiesOf feature = [] /\ Go.mapGet "definition" feature = None).
Proof.
  unfold passthrough.getFeatureProperties.
  change passthrough.valuePropertiesTag with "properties".
  change passthrough.valueDefinitionTag with "definition".
  change (match Go.mapGet "properties" feature with
          | Some (JObj properties) => properties
          | _ => []
          end) with (View.propertiesOf feature).
  destruct (Go.mapGet "definition" feature) as [d|] eqn:Ed.
  - exists (Go.mapSet "definition" d (View.propertiesOf feature)). split; [|split; [|split]].
    + pose proof (mapSet_nonempty "definition" d (View.propertiesOf feature)) as Hne.
      destruct (Go.mapSet "definition" d (View.propertiesOf feature)); [contradiction | reflexivity].
    + intros key Hkey. now apply mapGet_mapSet_other.
    + apply mapGet_mapSet_same.
    + split; [intros H; now apply mapSet_nonempty in H | intros [_ H]; discriminate].
  - exists (View.propertiesOf feature). split; [|split; [|split]].
    + destruct (View.propertiesOf feature); reflexivity.
    + reflexivity.
    + reflexivity.
    + split; [intros H; auto | intros [H _]; exact H].
Qed.

(** X6. An entry of the features map gives at most one message, and none
    exactly when the feature is neither [null] nor an object with a
    property to use or a definition. *)
Theorem feature_entry_messages (env : Envelope) (F : string) (feature : json) :
  passthrough.isShadowMessage h env = Returns true ->
  exists msgs,
    passthrough.featureMessages ext h env (F, feature) = Returns msgs /\
    (length msgs <= 1)%nat /\
    (msgs = [] <->
     feature <> JNull /\
     forall f, feature = JObj f ->
               View.propertiesOf f = [] /\ Go.mapGet "definition" f = None).
Proof.
  intros Hs. destruct (isShadowMessage_inv h env Hs) as [t [Ht [Hid _]]].
  assert (Hmsg : forall value, exists m,
             passthrough.toShadowMessage ext h env F value = Returns m).
  { intros value. destruct (toShadowMessage_spec ext h env t F value Ht Hid) as [sc [_ ->]].
    eauto. }
  unfold passthrough.featureMessages.
  destruct feature as [| b | n | s | items | f];
    try (exists []; split; [reflexivity|]; split; [simpl; lia|];
         split; [intros _; split; [discriminate | intros f Hf; discriminate Hf] | reflexivity]).
  - destruct (Hmsg JNull) as [m Hm]. exists [m]. simpl. rewrite Hm. simpl.
    split; [reflexivity|]. split; [lia|].
    split; [discriminate | intros [H _]; now destruct H].
  - destruct (getFeatureProperties_empty_iff f) as [m [Hget Hempty]].
    simpl passthrough.isNil. cbv iota. rewrite Hget.
    destruct m as [|kv m]; simpl.
    + exists []. split; [reflexivity|]. split; [simpl; lia|].
      split; [|reflexivity]. intros _. split; [discriminate|].
      intros f' Hf. injection Hf as <-. apply Hempty. reflexivity.
    + destruct (Hmsg (JObj (kv :: m))) as [msg Hm]. rewrite Hm. simpl.
      exists [msg]. split; [reflexivity|]. split; [simpl; lia|].
      split; [discriminate|]. intros [_ H].
      destruct (H f eq_refl) as [H1 H2].
      assert (Hnil : kv :: m = []) by (apply Hempty; auto). discriminate.
Qed.

End FeatureEntry.

(** ** Which messages take the shadow branch *)

Section Classification.

Variable ext : Extern.
Variable run : Run.
Variable h : passthrough.deviceHandler.

Local Abbreviation D := (passthrough.deviceID h).

(** An envelope with a topic is classified without a panic, and as a twin
    shadow message exactly under the conditions of [View.twinCommand]. *)
Lemma isShadowMessage_iff (env : Envelope) (t : Topic) :
  EnvTopic env = Some t ->
  exists b, passthrough.isShadowMessage h env = Returns b /\
            (b = true <-> View.twinCommand D env t).
Proof.
  intros Ht.
  assert (Hret : exists b, passthrough.isShadowMessage h env = Returns b).
  { unfold passthrough.isShadowMessage, passthrough.isDittoRequest. rewrite Ht. simpl. eauto. }
  destruct Hret as [b Hb]. exists b. split; [exact Hb|]. split.
  - intros ->. destruct (isShadowMessage_inv h env Hb) as [t' [Ht' H]].
    rewrite Ht in Ht'. injection Ht' as <-. unfold View.twinCommand.
    change (Spec.thingIdentity t) with (passthrough.thingID t). tauto.
  - intros [Hst [Hgr [Hid [Hch [Hcr Hact]]]]].
    change (Spec.thingIdentity t) with (passthrough.thingID t) in Hid.
    unfold passthrough.isShadowMessage, passthrough.isDittoRequest in Hb.
    rewrite Ht in Hb. simpl in Hb. injection Hb as <-.
    rewrite Hst, Hgr, Hch, Hcr. simpl.
    assert (Hthing : (String.eqb (passthrough.thingID t) D
                      || Go.HasPrefix (passthrough.thingID t) (D ++ ":"))%bool = true).
    { destruct Hid as [-> | [C ->]].
      - now rewrite String.eqb_refl.
      - unfold Go.HasPrefix. rewrite <- (append_assoc D ":" C), prefix_append.
        apply orb_true_r. }
    rewrite Hthing. simpl.
    change ActionCreate with "create". change ActionModify with "modify".
    change ActionMerge with "merge". change ActionDelete with "delete".
    destruct Hact as [-> | [-> | [-> | ->]]]; reflexivity.
Qed.

(** X7. A payload that is no envelope, and an envelope with a topic that
    fails one of the conditions of a twin shadow message (status 0, group
    [things], thing identity [D] or [D:...], channel [twin], criterion
    [commands], action create, modify, merge or delete), gets exactly the
    answer of the default handler. *)
Theorem other_messages_go_to_default_handler (msg : Message) :
  (Envelope_Unmarshal ext (msgPayload msg) = None \/
   exists env t, Envelope_Unmarshal ext (msgPayload msg) = Some env /\
                 EnvTopic env = Some t /\ ~ View.twinCommand D env t) ->
  passthrough.HandleMessage ext run h msg =
    Returns (passthrough.defaultHandler h (clock run) msg).
Proof.
  intros [Hp | [env [t [Hp [Ht Hn]]]]]; unfold passthrough.HandleMessage; rewrite Hp;
    [reflexivity|].
  destruct (isShadowMessage_iff env t Ht) as [b [Hb Hiff]].
  destruct b; [now destruct Hn; apply Hiff|].
  unfold passthrough.toShadowMessages. rewrite Hb. reflexivity.
Qed.

(** X8. An envelope decoded without a topic makes the device handler
    panic on the nil pointer: it is neither rewritten nor handed to the
    default handler. *)
Theorem device_handler_panics_without_topic (msg : Message) (env : Envelope) :
  Envelope_Unmarshal ext (msgPayload msg) = Some env ->
  EnvTopic env = None ->
  passthrough.HandleMessage ext run h msg = Panics.
Proof.
  intros Hp Ht. unfold passthrough.HandleMessage, passthrough.toShadowMessages,
    passthrough.isShadowMessage, passthrough.isDittoRequest.
  now rewrite Hp, Ht.
Qed.

(** X9. [toShadowTopic] tells the root thing from a child by the length of
    the thing identity alone, and cuts the child name after [len(D)+1]
    bytes: it panics exactly when the thing identity is shorter than the
    device identity. *)
Theorem toShadowTopic_panics_iff (t : Topic) (F : string) (value : json) :
  passthrough.toShadowTopic h (Some t) F value = Panics <->
  (String.length (passthrough.thingID t) < String.length D)%nat.
Proof.
  unfold passthrough.toShadowTopic, Go.sliceFrom.
  destruct (String.eqb (Action t) ActionDelete && passthrough.isEntireShadow value);
    (destruct (String.length D =? String.length (passthrough.thingID t))%nat eqn:Elen;
     [ apply Nat.eqb_eq in Elen;
       destruct (String.eqb F ""); (split; [discriminate | intros Hlt; lia])
     | apply Nat.eqb_neq in Elen;
       destruct (String.length D + 1 <=? String.length (passthrough.thingID t))%nat eqn:Ele;
       [ apply Nat.leb_le in Ele;
         destruct (String.eqb F ""); simpl; (split; [discriminate | intros Hlt; lia])
       | apply Nat.leb_gt in Ele;
         destruct (String.eqb F ""); simpl; (split; [intros _; lia | reflexivity]) ] ]).
Qed.

End Classification.

(** ** Envelopes that address one path *)

Section AddressedPath.

Variable ext : Extern.
Variable run : Run.
Variable h : passthrough.deviceHandler.

Lemma filter_segments_tail (path : list string) (s : string) (more : list string) :
  List.filter View.nonEmpty path = s :: more ->
  List.filter View.nonEmpty more = more.
Proof.
  intros Hseg.
  assert (Hall : Forall (fun x => View.nonEmpty x = true) (s :: more)).
  { rewrite <- Hseg. apply List.Forall_forall. intros x Hx.
    apply List.filter_In in Hx as [_ H]. exact H. }
  inversion Hall as [|? ? _ Hm]; subst. clear -Hm.
  induction Hm as [|x l Hx _ IH]; simpl; [reflexivity|]. now rewrite Hx, IH.
Qed.

(** Filtering an object with one entry gives [nil] or an object with the
    same single key. *)
Lemma filterPayload_single_key (s : string) (x : json) :
  passthrough.filterPayload h (JObj [(s, x)]) = JNull \/
  exists x', passthrough.filterPayload h (JObj [(s, x)]) = JObj [(s, x')].
Proof.
  unfold passthrough.filterPayload.
  destruct (0 <? length (passthrough.payloadFilters h))%nat; [|right; eauto].
  rewrite _filterPayload_object.
  change (View.keptFields (passthrough.payloadFilters h) "" [(s, x)])
    with (let '(rem, val) :=
            passthrough._filterPayload (passthrough.payloadFilters h) ("" ++ "/" ++ s) x in
          if rem then [] else [(s, val)]).
  destruct (passthrough._filterPayload (passthrough.payloadFilters h) ("" ++ "/" ++ s) x)
    as [[|] val]; simpl; [left; reflexivity | right; eauto].
Qed.

(** X10. A twin command whose path starts with anything but [attributes]
    or [features] (the policy, the definition of the thing, ...) is
    claimed by the shadow branch and emits nothing: it is not handed to the
    default handler either. *)
Theorem other_paths_emit_nothing (msg : Message) (env : Envelope) (s : string)
    (more : list string) :
  Envelope_Unmarshal ext (msgPayload msg) = Some env ->
  passthrough.isShadowMessage h env = Returns true ->
  List.filter View.nonEmpty (Go.Split (Path env)) = s :: more ->
  s <> "attributes" -> s <> "features" ->
  passthrough.HandleMessage ext run h msg = Returns ([], None).
Proof.
  intros Hp Hs Hseg Hna Hnf.
  destruct (isShadowMessage_inv h env Hs) as [t [Ht _]].
  unfold passthrough.HandleMessage, passthrough.toShadowMessages.
  rewrite Hp, Hs. simpl. rewrite Ht.
  destruct (match passthrough.topicFilter h with
            | Some re => MatchString re (Topic_String ext t)
            | None => false
            end); [reflexivity|].
  rewrite (integrate_first_segment _ (Value env) s more Hseg).
  destruct (filterPayload_single_key s (passthrough.integrate more (Value env)))
    as [-> | [x' ->]]; [reflexivity|].
  simpl. apply String.eqb_neq in Hna, Hnf.
  change passthrough.valueAttributesTag with "attributes".
  change passthrough.valueFeaturesTag with "features".
  now rewrite Hna, Hnf.
Qed.

(** X11. With no filter configured, a twin command on a path below
    [/attributes] gives exactly one message, on the attributes shadow: it
    carries the rest of the path applied to the value when that is an
    object, and [nil] otherwise. *)
Theorem attributes_path_gives_one_message (msg : Message) (env : Envelope)
    (more : list string) :
  Envelope_Unmarshal ext (msgPayload msg) = Some env ->
  passthrough.isShadowMessage h env = Returns true ->
  passthrough.payloadFilters h = [] ->
  passthrough.topicFilter h = None ->
  List.filter View.nonEmpty (Go.Split (Path env)) = "attributes" :: more ->
  exists m,
    passthrough.toShadowMessage ext h env ""
      (View.asMap (passthrough.integrate more (Value env))) = Returns m /\
    passthrough.HandleMessage ext run h msg = Returns ([m], None).
Proof.
  intros Hp Hs Hpf Htf Hseg.
  destruct (isShadowMessage_inv h env Hs) as [t [Ht [Hid _]]].
  destruct (toShadowMessage_spec ext h env t ""
              (View.asMap (passthrough.integrate more (Value env))) Ht Hid)
    as [scope [_ Hm]].
  eexists. split; [exact Hm|].
  unfold passthrough.HandleMessage, passthrough.toShadowMessages.
  rewrite Hp, Hs. simpl. rewrite Ht, Htf.
  rewrite (integrate_first_segment _ (Value env) "attributes" more Hseg).
  unfold passthrough.filterPayload. rewrite Hpf. simpl.
  destruct (passthrough.integrate more (Value env)); simpl in Hm |- *; rewrite Hm; reflexivity.
Qed.

(** X12. With no filter configured, a twin command on a path below
    [/features/F] gives the messages of the one entry [F] of the features
    map, whose value is the rest of the path applied to the value of the
    envelope. *)
Theorem feature_path_gives_entry_messages (msg : Message) (env : Envelope)
    (F : string) (more : list string) :
  Envelope_Unmarshal ext (msgPayload msg) = Some env ->
  passthrough.isShadowMessage h env = Returns true ->
  passthrough.payloadFilters h = [] ->
  passthrough.topicFilter h = None ->
  (forall features, Permutation (rangeOrder run features) features) ->
  List.filter View.nonEmpty (Go.Split (Path env)) = "features" :: F :: more ->
  passthrough.HandleMessage ext run h msg =
    do msgs <~ passthrough.featureMessages ext h env (F, passthrough.integrate more (Value env));
    Returns (msgs, None).
Proof.
  intros Hp Hs Hpf Htf Horder Hseg.
  destruct (isShadowMessage_inv h env Hs) as [t [Ht _]].
  unfold passthrough.HandleMessage. rewrite Hp. unfold passthrough.toShadowMessages.
  remember (passthrough.featureMessages ext h env) as entry eqn:Eentry.
  rewrite Hs. simpl. rewrite Ht, Htf.
  rewrite (integrate_first_segment _ (Value env) "features" (F :: more) Hseg).
  pose proof (filter_segments_tail _ _ _ Hseg) as Htail.
  rewrite (integrate_first_segment (F :: more) (Value env) F more Htail).
  unfold passthrough.filterPayload. rewrite Hpf. simpl.
  assert (Hone : rangeOrder run [(F, passthrough.integrate more (Value env))] =
                 [(F, passthrough.integrate more (Value env))]).
  { apply Permutation_length_1_inv. symmetry. apply Horder. }
  rewrite Hone. simpl.
  destruct (entry (F, passthrough.integrate more (Value env))) as [msgs|]; simpl;
    [now rewrite app_nil_r | reflexivity].
Qed.

End AddressedPath.

(** ** What the mirror keeps *)

Section MirrorInvariants.

Variable ext : Extern.
Variable h : state.shadowStateHandler.

(** X13. The shadow state handler never emits a message; when it returns
    an error the mirror is what it was; and a message without a topic in
    its context is answered with an error. *)
Theorem mirror_error_changes_nothing (shadows shadows' : gmap string json)
    (msg : Message) (msgs : list Message) (err : option error) :
  state.HandleMessage ext h shadows msg = Returns (shadows', (msgs, err)) ->
  msgs = [] /\
  (err <> None -> shadows' = shadows) /\
  (msgTopic msg = None -> err <> None).
Proof.
  unfold state.HandleMessage. destruct (msgTopic msg) as [topic|].
  - intros H. apply obind_returns in H as [id [_ H]].
    destruct (Go.HasSuffix topic "/delete/accepted").
    + injection H as <- <- <-. repeat split; [intros Hn; now destruct Hn | discriminate].
    + destruct (json_Unmarshal ext (msgPayload msg)) as [payload|].
      * destruct (state.getReportedState payload) as [reported|];
          injection H as <- <- <-; repeat split;
          try discriminate; intros Hn; now destruct Hn.
      * injection H as <- <- <-. repeat split; discriminate.
  - intros H. injection H as <- <- <-. repeat split; discriminate.
Qed.

(** X14. A notification changes the state of the one shadow its topic
    names: the current state of every other shadow identifier is what it
    was before. *)
Theorem mirror_touches_one_shadow (shadows shadows' : gmap string json)
    (msg : Message) (topic id : string) (result : list Message * option error) :
  msgTopic msg = Some topic ->
  state.getShadowID h topic = Returns id ->
  state.HandleMessage ext h shadows msg = Returns (shadows', result) ->
  forall other, other <> id ->
    state.GetCurrentShadowState shadows' other = state.GetCurrentShadowState shadows other.
Proof.
  intros Ht Hid. unfold state.HandleMessage. rewrite Ht, Hid. simpl.
  intros H other Hne. unfold state.GetCurrentShadowState.
  destruct (Go.HasSuffix topic "/delete/accepted").
  - injection H as <- _. rewrite lookup_delete_ne; [reflexivity | congruence].
  - destruct (json_Unmarshal ext (msgPayload msg)) as [payload|];
      [|injection H as <- _; reflexivity].
    destruct (state.getReportedState payload) as [reported|];
      injection H as <- _; [|reflexivity].
    rewrite lookup_insert_ne; [reflexivity | congruence].
Qed.

End MirrorInvariants.

(** ** From a publication to the key of its acknowledgement *)

Section PublicationKey.

Lemma Split_append_slash (a b : string) :
  Go.Split (a ++ String "/" b) = Go.Split a ++ Go.Split b.
Proof.
  induction a as [|c a IH]; simpl; [reflexivity|].
  destruct (Ascii.eqb c "/"); simpl; [now rewrite IH|].
  rewrite IH. pose proof (Split_nonempty a) as Ha.
  destruct (Go.Split a); [contradiction | reflexivity].
Qed.

Lemma Split_slashFree (s : string) : View.slashFree s = true -> Go.Split s = [s].
Proof.
  induction s as [|c s IH]; simpl; [reflexivity|].
  intros H. apply andb_true_iff in H as [Hc Hs].
  destruct (Ascii.eqb c "/"); [discriminate|]. now rewrite (IH Hs).
Qed.

Lemma slashFree_append (a b : string) :
  View.slashFree (a ++ b) = View.slashFree a && View.slashFree b.
Proof.
  induction a as [|c a IH]; [reflexivity|].
  change (String c a ++ b)%string with (String c (a ++ b)).
  cbn [View.slashFree]. now rewrite IH, andb_assoc.
Qed.

Lemma Contains_append (p sub q : string) : Go.Contains (p ++ sub ++ q) sub = true.
Proof.
  induction p as [|c p IH].
  - change ("" ++ sub ++ q)%string with (sub ++ q)%string.
    pose proof (prefix_append sub q) as H. revert H.
    generalize (sub ++ q)%string. intros s H. destruct s; cbn [Go.Contains]; rewrite H; reflexivity.
  - change (String c p ++ sub ++ q)%string with (String c (p ++ sub ++ q)).
    cbn [Go.Contains]. rewrite IH. apply orb_true_r.
Qed.

Lemma Contains_inv (s sub : string) :
  Go.Contains s sub = true -> exists p q, s = (p ++ sub ++ q)%string.
Proof.
  induction s as [|c s IH]; cbn [Go.Contains]; intros H.
  - rewrite orb_false_r in H. apply prefix_inv in H as [q Hq]. exists ""%string, q. exact Hq.
  - apply orb_true_iff in H as [H|H].
    + apply prefix_inv in H as [q Hq]. exists ""%string, q. exact Hq.
    + destruct (IH H) as [p [q ->]]. exists (String c p), q. reflexivity.
Qed.

(** A topic that contains [/name/] has a segment [name]. *)
Lemma Contains_name_segment (s : string) :
  Go.Contains s "/name/" = true -> In "name"%string (Go.Split s).
Proof.
  intros H. apply Contains_inv in H as [p [q ->]].
  change (p ++ "/name/" ++ q)%string with (p ++ String "/" ("name" ++ String "/" q))%string.
  rewrite !Split_append_slash. apply in_or_app. right. left. reflexivity.
Qed.

Variable h : state.shadowStateHandler.

Local Abbreviation D := (state.deviceID h).

Lemma getShadowID_root (rest : string) :
  View.slashFree D = true -> D <> "name"%string ->
  ~ In "name"%string (Go.Split rest) ->
  state.getShadowID h ("$aws/things/" ++ D ++ String "/" rest) = Returns D.
Proof.
  intros Hfree Hname Hrest. unfold state.getShadowID.
  destruct (Go.Contains ("$aws/things/" ++ D ++ String "/" rest) "/name/") eqn:E;
    [|reflexivity].
  apply Contains_name_segment in E.
  change ("$aws/things/" ++ D ++ String "/" rest)%string
    with ("$aws" ++ String "/" ("things" ++ String "/" (D ++ String "/" rest)))%string in E.
  rewrite !Split_append_slash, (Split_slashFree D Hfree) in E. simpl in E.
  destruct E as [E | [E | [E | E]]]; try discriminate; [now destruct Hname | contradiction].
Qed.

Lemma getShadowID_named (name rest : string) :
  View.slashFree D = true -> View.slashFree name = true ->
  state.getShadowID h ("$aws/things/" ++ D ++ "/shadow/name/" ++ name ++ String "/" rest) =
    Returns name.
Proof.
  intros Hfree Hname. unfold state.getShadowID.
  assert (Hc : Go.Contains
                 ("$aws/things/" ++ D ++ "/shadow/name/" ++ name ++ String "/" rest) "/name/"
               = true).
  { replace ("$aws/things/" ++ D ++ "/shadow/name/" ++ name ++ String "/" rest)%string
      with (("$aws/things/" ++ D ++ "/shadow") ++ "/name/" ++ (name ++ String "/" rest))%string
      by (now rewrite !append_assoc).
    apply Contains_append. }
  rewrite Hc. simpl negb. cbv iota.
  change ("$aws/things/" ++ D ++ "/shadow/name/" ++ name ++ String "/" rest)%string
    with ("$aws" ++ String "/" ("things" ++ String "/" (D ++ String "/"
            ("shadow" ++ String "/" ("name" ++ String "/" (name ++ String "/" rest))))))%string.
  rewrite !Split_append_slash, (Split_slashFree D Hfree), (Split_slashFree name Hname).
  reflexivity.
Qed.

(** The acknowledgement of a publication on the topic of a template
    comes on that topic followed by [/accepted]; the mirror files it under
    the key of the scope. *)
Lemma getShadowID_templateTopic (scope : Spec.shadowScope) (T : string) :
  View.slashFree D = true -> D <> "name"%string ->
  View.slashFree (View.shadowKey D scope) = true ->
  T = "update"%string \/ T = "delete"%string ->
  state.getShadowID h (Spec.templateTopic D scope T ++ "/accepted") =
    Returns (View.shadowKey D scope).
Proof.
  intros Hfree Hname Hkey HT.
  destruct scope as [|F|C|C F]; unfold Spec.templateTopic, View.shadowKey in *.
  - replace (("$aws/things/" ++ D ++ "/shadow/" ++ T) ++ "/accepted")%string
      with ("$aws/things/" ++ D ++ String "/" ("shadow/" ++ T ++ "/accepted"))%string
      by (now rewrite !append_assoc).
    apply getShadowID_root; [assumption | assumption |].
    destruct HT as [-> | ->]; simpl; intros [E | [E | [E | E]]];
      discriminate || contradiction.
  - replace (("$aws/things/" ++ D ++ "/shadow/name/" ++ F ++ "/" ++ T) ++ "/accepted")%string
      with ("$aws/things/" ++ D ++ "/shadow/name/" ++ F ++ String "/" (T ++ "/accepted"))%string
      by (now rewrite !append_assoc).
    now apply getShadowID_named.
  - replace (("$aws/things/" ++ D ++ "/shadow/name/" ++ C ++ "/" ++ T) ++ "/accepted")%string
      with ("$aws/things/" ++ D ++ "/shadow/name/" ++ C ++ String "/" (T ++ "/accepted"))%string
      by (now rewrite !append_assoc).
    now apply getShadowID_named.
  - replace (("$aws/things/" ++ D ++ "/shadow/name/" ++ C ++ ":" ++ F ++ "/" ++ T)
             ++ "/accepted")%string
      with ("$aws/things/" ++ D ++ "/shadow/name/" ++ (C ++ ":" ++ F)
            ++ String "/" (T ++ "/accepted"))%string
      by (now rewrite !append_assoc).
    now apply getShadowID_named.
Qed.

End PublicationKey.

(** X15. The acknowledgement AWS sends for a publication of the device
    handler, on the topic of the publication followed by [/accepted], is
    filed by the mirror under the device identity for the attributes of
    the root thing, under [F] for a feature of the root thing, under [C]
    for the attributes of the child [D:C] and under [C:F] for a feature of
    that child (thing identity and feature name without a slash, the
    device not being called [name]). *)
Theorem mirror_key_of_publication (device : passthrough.deviceHandler)
    (mirror : state.shadowStateHandler) (t : Topic) (F : string) (value : json)
    (topic : string) (update : bool) :
  state.deviceID mirror = passthrough.deviceID device ->
  (passthrough.thingID t = passthrough.deviceID device \/
   exists C, passthrough.thingID t = (passthrough.deviceID device ++ ":" ++ C)%string) ->
  View.slashFree (passthrough.thingID t) = true ->
  View.slashFree F = true ->
  passthrough.deviceID device <> "name"%string ->
  passthrough.toShadowTopic device (Some t) F value = Returns (topic, update) ->
  exists scope,
    Spec.scopeOf (passthrough.deviceID device) (passthrough.thingID t) F scope /\
    state.getShadowID mirror (topic ++ "/accepted") =
      Returns (View.shadowKey (passthrough.deviceID device) scope).
Proof.
  intros Hdev Hid Hthing HF Hname Htopic.
  destruct (toShadowTopic_spec device t F value Hid) as [scope [Hsc Heq]].
  rewrite Heq in Htopic. exists scope. split; [exact Hsc|].
  assert (Hfree : View.slashFree (passthrough.deviceID device) = true /\
                  View.slashFree (View.shadowKey (passthrough.deviceID device) scope) = true).
  { destruct Hsc as [Ht _ | Ht _ | C Ht _ | C Ht _]; rewrite Ht in Hthing; simpl;
      rewrite ?slashFree_append in *; repeat (apply andb_true_iff in Hthing as [Hthing ?]);
      rewrite ?andb_true_iff; auto. }
  destruct Hfree as [HD Hkey]. rewrite <- Hdev in *.
  destruct (String.eqb (Action t) "delete" && passthrough.isEntireShadow value);
    injection Htopic as <- <-; apply getShadowID_templateTopic; auto.
Qed.

(** ** Compiling the configured filters *)

Section CompiledFilters.

Variable compile : string -> Regexp + error.

Local Abbreviation compiles := (fun (f : string) (r : Regexp) => compile f = inl r).

Lemma nonempty_string (s : string) : (0 <? String.length s)%nat = false <-> s = ""%string.
Proof. destruct s; simpl; split; intros H; (reflexivity || discriminate H). Qed.

(** The loop stops at the first expression that does not compile; what
    was compiled before it has been appended. *)
Lemma compilePayloadFilters_spec (filters : list string) :
  forall compiled,
    (exists rs, Forall2 compiles filters rs /\
                config.compilePayloadFilters compile filters compiled = (compiled ++ rs, None)) \/
    (exists before f after rs err,
        filters = before ++ f :: after /\ Forall2 compiles before rs /\
        compile f = inr err /\
        config.compilePayloadFilters compile filters compiled = (compiled ++ rs, Some err)).
Proof.
  induction filters as [|v rest IH]; intros compiled; simpl.
  - left. exists []. split; [constructor | now rewrite app_nil_r].
  - destruct (compile v) as [exp|err] eqn:Ev.
    + destruct (IH (compiled ++ [exp])) as [[rs [Hrs Heq]] | [before [f [after [rs [err [Hf [Hrs [Herr Heq]]]]]]]]].
      * left. exists (exp :: rs). split; [now constructor|].
        rewrite Heq, <- app_assoc. reflexivity.
      * right. exists (v :: before), f, after, (exp :: rs), err.
        repeat split; [now rewrite Hf | now constructor | exact Herr |].
        rewrite Heq, <- app_assoc. reflexivity.
    + right. exists [], v, rest, [], err.
      repeat split; [constructor | exact Ev | now rewrite app_nil_r].
Qed.

Lemma compiles_all (filters : list string) (rs : list Regexp) :
  Forall2 compiles filters rs -> Forall (fun f => exists r, compile f = inl r) filters.
Proof. induction 1; constructor; eauto. Qed.

(** X16. [CompileFilters] returns no error exactly when the topic filter is
    empty or compiles and every payload filter compiles. *)
Theorem CompileFilters_succeeds_iff (settings : config.MessageFilterSettings) :
  snd (config.CompileFilters compile settings) = None <->
  (config.TopicFilter settings = ""%string \/
   exists r, compile (config.TopicFilter settings) = inl r) /\
  Forall (fun f => exists r, compile f = inl r) (config.PayloadFilters settings).
Proof.
  unfold config.CompileFilters.
  destruct (compilePayloadFilters_spec (config.PayloadFilters settings)
              (config.PayloadFiltersRegexp settings))
    as [[rs [Hrs Heq]] | [before [f [after [rs [err [Hf [Hrs [Herr Heq]]]]]]]]];
    rewrite Heq; clear Heq.
  - apply compiles_all in Hrs.
    destruct (0 <? String.length (config.TopicFilter settings))%nat eqn:El.
    + destruct (compile (config.TopicFilter settings)) as [exp|err] eqn:Et; simpl; split.
      * intros _. split; [right; eauto | exact Hrs].
      * reflexivity.
      * discriminate.
      * intros [[He | [r Hr]] _]; [|discriminate Hr].
        rewrite He in El. discriminate El.
    + simpl. apply nonempty_string in El. split; [intros _; split; auto | reflexivity].
  - assert (Hno : ~ Forall (fun f => exists r, compile f = inl r)
                      (config.PayloadFilters settings)).
    { rewrite Hf. intros Hall. apply Forall_app in Hall as [_ Hall].
      inversion Hall as [|? ? [r Hr] _]; subst. rewrite Herr in Hr. discriminate Hr. }
    destruct (0 <? String.length (config.TopicFilter settings))%nat;
      [destruct (compile (config.TopicFilter settings))|]; simpl;
      (split; [discriminate | intros [_ Hall]; now destruct Hno]).
Qed.

(** X17. When [CompileFilters] returns no error, the expressions are left
    as configured, the topic expression is replaced by the compiled topic
    filter (and left alone when no topic filter is configured), and the
    compiled payload filters are appended, one for each expression and in
    their order, to the ones the settings already held. *)
Theorem CompileFilters_success (settings : config.MessageFilterSettings) :
  snd (config.CompileFilters compile settings) = None ->
  exists topic compiled,
    fst (config.CompileFilters compile settings) =
      {| config.TopicFilter := config.TopicFilter settings;
         config.TopicFilterRegexp := topic;
         config.PayloadFilters := config.PayloadFilters settings;
         config.PayloadFiltersRegexp := config.PayloadFiltersRegexp settings ++ compiled |} /\
    (config.TopicFilter settings = ""%string -> topic = config.TopicFilterRegexp settings) /\
    (config.TopicFilter settings <> ""%string ->
     exists r, compile (config.TopicFilter settings) = inl r /\ topic = Some r) /\
    Forall2 compiles (config.PayloadFilters settings) compiled.
Proof.
  unfold config.CompileFilters.
  destruct (compilePayloadFilters_spec (config.PayloadFilters settings)
              (config.PayloadFiltersRegexp settings))
    as [[rs [Hrs Heq]] | [before [f [after [rs [err [Hf [Hrs [Herr Heq]]]]]]]]];
    rewrite Heq; clear Heq.
  - destruct (0 <? String.length (config.TopicFilter settings))%nat eqn:El.
    + destruct (compile (config.TopicFilter settings)) as [exp|err] eqn:Et; simpl;
        [|discriminate].
      intros _. exists (Some exp), rs. repeat split; [|eauto|exact Hrs].
      intros He. rewrite He in El. discriminate El.
    + simpl. apply nonempty_string in El. intros _.
      exists (config.TopicFilterRegexp settings), rs. repeat split; [|exact Hrs].
      intros Hn. now destruct Hn.
  - destruct (0 <? String.length (config.TopicFilter settings))%nat;
      [destruct (compile (config.TopicFilter settings))|]; simpl; discriminate.
Qed.

(** X18. The error [CompileFilters] returns is the one of the first
    expression that does not compile, the topic filter coming first.  A
    topic filter that does not compile leaves the settings as they were;
    a payload filter that does not compile leaves behind the compiled
    topic filter and the payload filters compiled before it. *)
Theorem CompileFilters_failure (settings : config.MessageFilterSettings) (err : error) :
  snd (config.CompileFilters compile settings) = Some err ->
  (config.TopicFilter settings <> ""%string /\
   compile (config.TopicFilter settings) = inr err /\
   fst (config.CompileFilters compile settings) = settings) \/
  ((config.TopicFilter settings = ""%string /\
    config.TopicFilterRegexp (fst (config.CompileFilters compile settings)) =
      config.TopicFilterRegexp settings \/
    exists r, compile (config.TopicFilter settings) = inl r /\
              config.TopicFilterRegexp (fst (config.CompileFilters compile settings)) = Some r) /\
   exists before f after compiled,
     config.PayloadFilters settings = before ++ f :: after /\
     Forall2 compiles before compiled /\
     compile f = inr err /\
     config.PayloadFiltersRegexp (fst (config.CompileFilters compile settings)) =
       config.PayloadFiltersRegexp settings ++ compiled).
Proof.
  unfold config.CompileFilters.
  destruct (0 <? String.length (config.TopicFilter settings))%nat eqn:El.
  - destruct (compile (config.TopicFilter settings)) as [exp|terr] eqn:Et.
    + destruct (compilePayloadFilters_spec (config.PayloadFilters settings)
                  (config.PayloadFiltersRegexp settings))
        as [[rs [Hrs Heq]] | [before [f [after [rs [perr [Hf [Hrs [Herr Heq]]]]]]]]];
        rewrite Heq; simpl; [discriminate|].
      intros H. injection H as <-. right. split; [right; eauto|].
      exists before, f, after, rs. auto.
    + simpl. intros H. injection H as <-. left. repeat split.
      intros He. rewrite He in El. discriminate El.
  - apply nonempty_string in El.
    destruct (compilePayloadFilters_spec (config.PayloadFilters settings)
                (config.PayloadFiltersRegexp settings))
      as [[rs [Hrs Heq]] | [before [f [after [rs [perr [Hf [Hrs [Herr Heq]]]]]]]]];
      rewrite Heq; simpl; [discriminate|].
    intros H. injection H as <-. right. split; [left; auto|].
    exists before, f, after, rs. auto.
Qed.

End CompiledFilters.

(** ** The further properties on the inputs of the tests *)

Section FurtherScenarios.

Lemma filterPayload_keeps_unmatched_leaves_witness :
  passthrough.payloadFilters Scenario.handlerReadmeFilters <> [] /\
  View.leafValues (passthrough.filterPayload Scenario.handlerReadmeFilters Cases.unfiltered) =
    [JNum 201; JNum 200].
Proof.
  split; [discriminate|].
  apply (filterPayload_keeps_unmatched_leaves Scenario.handlerReadmeFilters Cases.unfiltered);
    discriminate.
Defined.

Lemma filterPayload_untouched_witness :
  passthrough.filterPayload Scenario.handlerReadmeFilters Cases.wanted = Cases.wanted.
Proof.
  apply (filterPayload_untouched Scenario.handlerReadmeFilters Cases.wanted).
  - repeat constructor.
  - simpl. repeat split; discriminate.
Defined.

Lemma filterPayload_drops_leafless_witness :
  passthrough.filterPayload Scenario.handlerPayloadFilter Cases.hollow = JNull.
Proof.
  apply (filterPayload_drops_leafless Scenario.handlerPayloadFilter Cases.hollow);
    [discriminate | reflexivity].
Defined.

Lemma feature_entry_messages_witness :
  exists msgs,
    passthrough.featureMessages Scenario.ext Scenario.handler Cases.modifyFeatureEnvelope
      ("test", JObj [("properties", JObj [("status", JNum 200)])]) = Returns msgs /\
    (length msgs <= 1)%nat /\
    (msgs = [] <->
     JObj [("properties", JObj [("status", JNum 200)])] <> JNull /\
     forall f, JObj [("properties", JObj [("status", JNum 200)])] = JObj f ->
               View.propertiesOf f = [] /\ Go.mapGet "definition" f = None).
Proof.
  apply (feature_entry_messages Scenario.ext Scenario.handler Cases.modifyFeatureEnvelope
           "test" (JObj [("properties", JObj [("status", JNum 200)])])).
  reflexivity.
Defined.

(** The live message of TestEvents is left to the default handler. *)
Lemma other_messages_go_to_default_handler_witness :
  passthrough.HandleMessage Scenario.ext Scenario.inOrder Scenario.handler
    (Scenario.local Scenario.liveMessage) =
    Returns (Scenario.forward 0 (Scenario.local Scenario.liveMessage)).
Proof.
  apply (other_messages_go_to_default_handler Scenario.ext Scenario.inOrder Scenario.handler
           (Scenario.local Scenario.liveMessage)).
  right. do 2 eexists. split; [reflexivity|]. split; [reflexivity|].
  intros [_ [_ [_ [H _]]]]. discriminate H.
Defined.

Lemma device_handler_panics_without_topic_witness :
  passthrough.HandleMessage Scenario.ext Scenario.inOrder Scenario.handler
    (Scenario.local Scenario.noTopic) = Panics.
Proof.
  eapply (device_handler_panics_without_topic Scenario.ext Scenario.inOrder Scenario.handler
            (Scenario.local Scenario.noTopic)); reflexivity.
Defined.

(** A thing identity shorter than the device identity. *)
Lemma toShadowTopic_panics_iff_witness :
  passthrough.toShadowTopic Scenario.handler
    (Some {| Namespace := "a"; EntityName := "b"; Group := "things"; Channel := "twin";
             Criterion := "commands"; Action := "modify" |}) "" JNull = Panics.
Proof.
  apply (proj2 (toShadowTopic_panics_iff Scenario.handler
                  {| Namespace := "a"; EntityName := "b"; Group := "things";
                     Channel := "twin"; Criterion := "commands"; Action := "modify" |}
                  "" JNull)).
  simpl. lia.
Defined.

Lemma other_paths_emit_nothing_witness :
  passthrough.HandleMessage Scenario.ext Scenario.inOrder Scenario.handler
    (Scenario.local Cases.modifyDefinition) = Returns ([], None).
Proof.
  eapply (other_paths_emit_nothing Scenario.ext Scenario.inOrder Scenario.handler
            (Scenario.local Cases.modifyDefinition));
    [reflexivity | reflexivity | reflexivity | discriminate | discriminate].
Defined.

Lemma attributes_path_gives_one_message_witness :
  exists m,
    passthrough.toShadowMessage Scenario.ext Scenario.handler Cases.modifyAttributeEnvelope ""
      (View.asMap (passthrough.integrate ["test"%string]
                     (Value Cases.modifyAttributeEnvelope))) = Returns m /\
    passthrough.HandleMessage Scenario.ext Scenario.inOrder Scenario.handler
      (Scenario.local Cases.modifyAttribute) = Returns ([m], None).
Proof.
  apply (attributes_path_gives_one_message Scenario.ext Scenario.inOrder Scenario.handler
           (Scenario.local Cases.modifyAttribute) Cases.modifyAttributeEnvelope
           ["test"%string]); reflexivity.
Defined.

(** TestHandleChildFeatureEvent: the one property is sent as the entry
    [test] of the features map. *)
Lemma feature_path_gives_entry_messages_witness :
  passthrough.HandleMessage Scenario.ext Scenario.inOrder Scenario.handler
    (Scenario.local Scenario.modifyChildProperty) =
    do msgs <~ passthrough.featureMessages Scenario.ext Scenario.handler
                 Cases.modifyChildPropertyEnvelope
                 ("test"%string,
                  passthrough.integrate ["properties"%string; "status"%string]
                    (Value Cases.modifyChildPropertyEnvelope));
    Returns (msgs, None).
Proof.
  apply (feature_path_gives_entry_messages Scenario.ext Scenario.inOrder Scenario.handler
           (Scenario.local Scenario.modifyChildProperty) Cases.modifyChildPropertyEnvelope
           "test" ["properties"%string; "status"%string]);
    [reflexivity | reflexivity | reflexivity | reflexivity
    | intros features; apply Permutation_refl | reflexivity].
Defined.

(** TestErrorWhenUpdatingAndPayloadNotMap, on a mirror that holds a
    state: the state stays. *)
Lemma mirror_error_changes_nothing_witness :
  exists shadows' msgs err,
    state.HandleMessage Scenario.ext Scenario.mirror
      {[ "test:device:child"%string := Scenario.reportedValue ]}
      (Scenario.accepted Scenario.childUpdateAccepted (JStr "invalid")) =
      Returns (shadows', (msgs, err)) /\
    msgs = [] /\
    (err <> None -> shadows' = {[ "test:device:child"%string := Scenario.reportedValue ]}) /\
    (msgTopic (Scenario.accepted Scenario.childUpdateAccepted (JStr "invalid")) = None ->
     err <> None).
Proof.
  do 3 eexists. split; [reflexivity|].
  eapply (mirror_error_changes_nothing Scenario.ext Scenario.mirror). reflexivity.
Defined.

Lemma mirror_touches_one_shadow_witness :
  exists shadows' result,
    state.HandleMessage Scenario.ext Scenario.mirror
      {[ "test"%string := Scenario.mirroredFeature ]}
      (Scenario.accepted Scenario.childUpdateAccepted Scenario.acceptedState) =
      Returns (shadows', result) /\
    forall other, other <> "test:device:child"%string ->
      state.GetCurrentShadowState shadows' other =
      state.GetCurrentShadowState {[ "test"%string := Scenario.mirroredFeature ]} other.
Proof.
  do 2 eexists. split; [reflexivity|].
  eapply (mirror_touches_one_shadow Scenario.ext Scenario.mirror _ _
            (Scenario.accepted Scenario.childUpdateAccepted Scenario.acceptedState)
            Scenario.childUpdateAccepted "test:device:child"); reflexivity.
Defined.

Lemma mirror_key_of_publication_witness :
  exists scope,
    Spec.scopeOf "test:device" "test:device:edge:containers" "test" scope /\
    state.getShadowID Scenario.mirror
      ("$aws/things/test:device/shadow/name/edge:containers:test/update" ++ "/accepted") =
      Returns (View.shadowKey "test:device" scope).
Proof.
  apply (mirror_key_of_publication Scenario.handler Scenario.mirror
           {| Namespace := "test"; EntityName := "device:edge:containers";
              Group := "things"; Channel := "twin";
              Criterion := "commands"; Action := "modify" |}
           "test" (JNum 200)
           "$aws/things/test:device/shadow/name/edge:containers:test/update" true);
    [reflexivity | right; exists "edge:containers"%string; reflexivity
    | reflexivity | reflexivity | discriminate | reflexivity].
Defined.

Lemma CompileFilters_succeeds_iff_witness :
  snd (config.CompileFilters Cases.compile (Cases.settings "" ["/unwanted"; "/0/value"])) = None.
Proof.
  apply (proj2 (CompileFilters_succeeds_iff Cases.compile
                  (Cases.settings "" ["/unwanted"; "/0/value"]%string))).
  split; [left; reflexivity|].
  repeat constructor; eexists; reflexivity.
Defined.

(** TestPayloadFilter and TestTopicFilter of the settings. *)
Lemma CompileFilters_success_witness :
  exists topic compiled,
    fst (config.CompileFilters Cases.compile (Cases.settings "test" ["/unwanted"; "/0/value"]))
    = {| config.TopicFilter := "test";
         config.TopicFilterRegexp := topic;
         config.PayloadFilters := ["/unwanted"; "/0/value"]%string;
         config.PayloadFiltersRegexp := [] ++ compiled |} /\
    ("test"%string = ""%string -> topic = None) /\
    ("test"%string <> ""%string ->
     exists r, Cases.compile "test" = inl r /\ topic = Some r) /\
    Forall2 (fun f r => Cases.compile f = inl r) ["/unwanted"; "/0/value"]%string compiled.
Proof.
  apply (CompileFilters_success Cases.compile
           (Cases.settings "test" ["/unwanted"; "/0/value"]%string)).
  reflexivity.
Defined.

(** TestPayloadFilterInvalid, with a filter that compiles before the one
    that does not. *)
Lemma CompileFilters_failure_witness :
  snd (config.CompileFilters Cases.compile (Cases.settings "" ["/unwanted"; "["; "/0/value"]))
  = Some "error parsing regexp: missing closing ]"%string /\
  exists before f after compiled,
    ["/unwanted"; "["; "/0/value"]%string = before ++ f :: after /\
    Forall2 (fun f r => Cases.compile f = inl r) before compiled /\
    Cases.compile f = inr "error parsing regexp: missing closing ]"%string /\
    config.PayloadFiltersRegexp
      (fst (config.CompileFilters Cases.compile
              (Cases.settings "" ["/unwanted"; "["; "/0/value"]))) = [] ++ compiled.
Proof.
  split; [reflexivity|].
  destruct (CompileFilters_failure Cases.compile
              (Cases.settings "" ["/unwanted"; "["; "/0/value"]%string)
              "error parsing regexp: missing closing ]" eq_refl) as [[H _] | [_ H]];
    [now destruct H | exact H].
Defined.

(** TestFilter: the command for the device reaches the inner handler. *)
Lemma filter_forwards_iff_witness :
  bus.filter Scenario.ext "test:device" Scenario.PassthroughHandler
    (Scenario.local Scenario.installCommand) =
    Returns (Scenario.PassthroughHandler (Scenario.local Scenario.installCommand)).
Proof.
  edestruct (filter_forwards_iff Scenario.ext "test:device" Scenario.PassthroughHandler
               (Scenario.local Scenario.installCommand)) as [H _];
    [reflexivity | reflexivity | apply H; left; reflexivity].
Defined.

End FurtherScenarios.
